(** * VM register synchronisation and the debug invalidity guard

    A shallow embedding of [hphp/runtime/vm/vm-regs.cpp]: the thread-local
    register-state flag, the two constructors of [VMRegAnchor], and the
    debug-only [AssertVMUnused] guard with its [AssertVMUnusedDisabler].

    The development follows the build in which [NDEBUG] is not defined:
    that is the only configuration in which the guard code of the file
    exists ([#ifndef NDEBUG]), and in it [assert] is a checked abort like
    [always_assert].

    Thread-local variables become fields of one per-thread state [vm];
    the C++ functions become computations in a state-and-abort monad
    over [vm].  Code of other translation units (the segment module, the
    native register inspector, frame and unit metadata, the operating
    system) is collected in the record [Env] and left uninterpreted. *)

From Stdlib Require Import ZArith Bool List Lia.
From stdpp Require Import base option strings gmap.

Open Scope Z_scope.

(** ** Data model

    Addresses, offsets and counts are integers without a bound: the
    declarations that fix their widths ([ActRec], [Func], [Offset],
    [TypedValue]) are not among the sources.  A null pointer is 0. *)

(** [enum class VMRegState]. *)
Inductive VMRegState : Set := CLEAN | DIRTY.

Definition VMRegState_eqb (a b : VMRegState) : bool :=
  match a, b with
  | CLEAN, CLEAN | DIRTY, DIRTY => true
  | _, _ => false
  end.

(** The part of [Func] the file reads: [unit()] and [base()]. *)
Record Func : Set := MkFunc {
  Func_unit : Z;   (* Unit*, by address *)
  Func_base : Z    (* bytecode offset of the function inside its unit *)
}.

(** The part of [ActRec] the file reads. *)
Record ActRec : Set := MkActRec {
  m_func : Func;
  m_soff : Z;      (* saved offset of the caller, relative to its function *)
  numArgs : Z;
  resumed : bool
}.

(** The register bundle behind [vmRegs()]. *)
Record VMRegs : Set := MkVMRegs {
  pc : Z;          (* pointer into a unit's bytecode *)
  fp : Z;          (* ActRec* *)
  stack_top : Z    (* TypedValue*, [regs.stack.top()] *)
}.

(** The data members of an [AssertVMUnused] object. *)
Record AssertVMUnused : Set := MkAssertVMUnused {
  m_oldBase : Z;
  m_oldState : VMRegState;
  m_oldProt : bool
}.

(** The data member of a [VMRegAnchor] object. *)
Record VMRegAnchor : Set := MkVMRegAnchor { m_old : VMRegState }.

Definition nullptr : Z := 0.

Inductive protection : Set := PROT_READ.

(** Calls that leave the translation unit and act on the segment or on
    page protection, in the order they happen. *)
Inductive event : Set :=
| rds_threadInit (new_base : Z)
| rds_threadExit (at_base : Z)
| sys_mprotect (addr len : Z) (prot : protection) (result : Z).

(** The state of one execution thread. *)
Record vm : Type := MkVM {
  tl_regState : VMRegState;              (* __thread VMRegState tl_regState *)
  vmRegsUnsafe : VMRegs;                 (* the canonical bundle *)
  tl_base : Z;                           (* rds::tl_base *)
  is_protected : bool;                   (* AssertVMUnused::is_protected *)
  tl_top_prot : Z;                       (* const AssertVMUnused* *)
  guards : gmap Z AssertVMUnused;        (* live guard objects, by address *)
  trace : list event
}.

(** The state of a freshly started thread, as the initialisers of the
    thread-local variables give it. *)
Definition thread_start (regs : VMRegs) (base : Z) : vm :=
  MkVM CLEAN regs base false nullptr ∅ [].

Definition set_regState (v : VMRegState) (s : vm) : vm :=
  MkVM v (vmRegsUnsafe s) (tl_base s) (is_protected s) (tl_top_prot s)
       (guards s) (trace s).
Definition set_regs (v : VMRegs) (s : vm) : vm :=
  MkVM (tl_regState s) v (tl_base s) (is_protected s) (tl_top_prot s)
       (guards s) (trace s).
Definition set_base (v : Z) (s : vm) : vm :=
  MkVM (tl_regState s) (vmRegsUnsafe s) v (is_protected s) (tl_top_prot s)
       (guards s) (trace s).
Definition set_protected (v : bool) (s : vm) : vm :=
  MkVM (tl_regState s) (vmRegsUnsafe s) (tl_base s) v (tl_top_prot s)
       (guards s) (trace s).
Definition set_top_prot (v : Z) (s : vm) : vm :=
  MkVM (tl_regState s) (vmRegsUnsafe s) (tl_base s) (is_protected s) v
       (guards s) (trace s).
Definition set_guards (v : gmap Z AssertVMUnused) (s : vm) : vm :=
  MkVM (tl_regState s) (vmRegsUnsafe s) (tl_base s) (is_protected s)
       (tl_top_prot s) v (trace s).
Definition log (e : event) (s : vm) : vm :=
  MkVM (tl_regState s) (vmRegsUnsafe s) (tl_base s) (is_protected s)
       (tl_top_prot s) (guards s) (trace s ++ [e]).

Definition set_pc (v : Z) (r : VMRegs) : VMRegs :=
  MkVMRegs v (fp r) (stack_top r).
Definition set_fp (v : Z) (r : VMRegs) : VMRegs :=
  MkVMRegs (pc r) v (stack_top r).
Definition set_stack_top (v : Z) (r : VMRegs) : VMRegs :=
  MkVMRegs (pc r) (fp r) v.

(** The triple an [AssertVMUnused] saves and restores. *)
Definition triple (s : vm) : Z * VMRegState * bool :=
  (tl_base s, tl_regState s, is_protected s).

Definition saved_triple (g : AssertVMUnused) : Z * VMRegState * bool :=
  (m_oldBase g, m_oldState g, m_oldProt g).

(** ** Code outside the translation unit *)

Record Env : Type := MkEnv {
  (* sizeof(TypedValue): the unit of the pointer arithmetic on the stack *)
  sizeof_TypedValue : Z;
  (* read-only frame memory: the ActRec an ActRec* points to *)
  frame_at : Z -> ActRec;
  (* g_context->getOuterVMFrame(ar); the caller dereferences the result
     without a test, so the lookup is taken to give a frame *)
  getOuterVMFrame : Z -> Z;
  (* unit->at(offset) *)
  Unit_at : Z -> Z -> Z;
  (* vmStack().isValidAddress(addr) *)
  isValidAddress : Z -> bool;
  (* whether assert_native_stack_aligned() finds the stack aligned *)
  native_stack_aligned : vm -> bool;
  (* the bundle the native register inspector computes *)
  fullSync : vm -> VMRegs;
  (* the base of the segment rds::threadInit() maps *)
  threadInit_base : vm -> Z;
  (* rds::persistentSection().begin() *)
  persistentSection_begin : vm -> Z;
  (* what mprotect(addr, len, PROT_READ) returns *)
  mprotect : vm -> Z -> Z -> protection -> Z
}.

(** ** The monad: thread state, and abort *)

Inductive failure : Set :=
| assert_regState_DIRTY        (* assert(tl_regState == VMRegState::DIRTY) *)
| assert_not_resumed           (* assert(!ar->resumed()) *)
| assert_valid_stack_address   (* assert(vmStack().isValidAddress(...)) *)
| assert_stack_aligned         (* assert_native_stack_aligned() *)
| assert_regState_CLEAN        (* the check inside vmRegs() *)
| always_assert_mprotect       (* always_assert(result == 0) *)
| dangling_guard.              (* use of a guard object that is not live *)

(** A computation either returns a value and a state, or terminates the
    process; the state at the abort is kept for inspection. *)
Inductive outcome (A : Type) : Type :=
| Ok (a : A) (s : vm)
| Fatal (f : failure) (s : vm).
Arguments Ok {A} a s.
Arguments Fatal {A} f s.

Definition M (A : Type) : Type := vm -> outcome A.

#[global] Instance M_ret : MRet M := fun A a s => Ok a s.
#[global] Instance M_bind : MBind M := fun A B k c s =>
  match c s with
  | Ok a s' => k a s'
  | Fatal f s' => Fatal f s'
  end.

Definition gets {A} (f : vm -> A) : M A := fun s => Ok (f s) s.
Definition modify (f : vm -> vm) : M unit := fun s => Ok tt (f s).
Definition abort {A} (f : failure) : M A := fun s => Fatal f s.
Definition check (b : bool) (f : failure) : M unit :=
  if b then mret tt else abort f.

(** Modelled from the spec: the macro [assert] of [hphp/util/assertions.h],
    which is not among the sources.  A violated precondition "triggers a
    fatal assertion that terminates the process in debug builds"; the
    development follows the debug build throughout. *)
Definition assert_ (b : bool) (f : failure) : M unit := check b f.

(** Modelled from the spec: the macro [always_assert] of the same header.
    "OS-level protection-syscall failure is always fatal." *)
Definition always_assert (b : bool) (f : failure) : M unit := check b f.

(** The state a run ends in, whether it returned or aborted. *)
Definition final {A} (o : outcome A) : vm :=
  match o with Ok _ s => s | Fatal _ s => s end.

Definition returns {A} (o : outcome A) : bool :=
  match o with Ok _ _ => true | Fatal _ _ => false end.

(** ** The program *)

Section Program.

Variable E : Env.

(** *** Register access *)

(** Modelled from the spec: [vmRegs()] of [vm-regs.h], which is not among
    the sources.  Reading the bundle "fails the invariant check, not a
    recoverable error, if flag ≠ CLEAN"; on success it gives access to
    the bundle. *)
Definition vmRegs : M VMRegs :=
  st ← gets tl_regState;
  assert_ (VMRegState_eqb st CLEAN) assert_regState_CLEAN;;
  gets vmRegsUnsafe.

(** A write through the reference [vmRegs()] returned. *)
Definition write_regs (f : VMRegs -> VMRegs) : M unit :=
  modify (fun s => set_regs (f (vmRegsUnsafe s)) s).

(** [vmsp()]: the stack top of [vmRegs()]. *)
Definition vmsp : M Z := r ← vmRegs; mret (stack_top r).

(** Modelled from the spec: [jit::syncVMRegs()] of [jit/fixup.h], which is
    not among the sources.  The full synchroniser "inspects actual
    native-code register contents ... and writes a canonical
    RegisterBundle; on return, flag = CLEAN". *)
Definition syncVMRegs : M unit :=
  modify (fun s => set_regState CLEAN (set_regs (fullSync E s) s)).

(** [assert_native_stack_aligned()]. *)
Definition assert_native_stack_aligned : M unit :=
  ok ← gets (native_stack_aligned E);
  assert_ ok assert_stack_aligned.

(** *** VMRegAnchor *)

(** [VMRegAnchor::VMRegAnchor()]. *)
Definition VMRegAnchor_ctor : M VMRegAnchor :=
  old ← gets tl_regState;                       (* : m_old(tl_regState) *)
  assert_native_stack_aligned;;
  syncVMRegs;;
  mret (MkVMRegAnchor old).

(** [VMRegAnchor::VMRegAnchor(ActRec* ar)]. *)
Definition VMRegAnchor_ctor_ar (ar : Z) : M VMRegAnchor :=
  old ← gets tl_regState;                       (* : m_old(tl_regState) *)
  st ← gets tl_regState;
  assert_ (VMRegState_eqb st DIRTY) assert_regState_DIRTY;;
  modify (set_regState CLEAN);;
  let prevAr := getOuterVMFrame E ar in
  let prevF := m_func (frame_at E prevAr) in
  assert_ (negb (resumed (frame_at E ar))) assert_not_resumed;;
  vmRegs;;                                      (* auto& regs = vmRegs() *)
  write_regs (set_stack_top
    (ar - numArgs (frame_at E ar) * sizeof_TypedValue E));;
  sp ← vmsp;
  assert_ (isValidAddress E sp) assert_valid_stack_address;;
  write_regs (set_pc
    (Unit_at E (Func_unit prevF) (Func_base prevF + m_soff (frame_at E ar))));;
  write_regs (set_fp prevAr);;
  mret (MkVMRegAnchor old).

(** Modelled from the spec: the destructor of [VMRegAnchor], declared in
    [vm-regs.h], which is not among the sources.  Release "restores the
    RegisterStateFlag that existed before construction" and does nothing
    else. *)
Definition VMRegAnchor_dtor (self : VMRegAnchor) : M unit :=
  modify (set_regState (m_old self)).

(** *** AssertVMUnused and AssertVMUnusedDisabler *)

(** Modelled from the spec: [rds::threadInit()], a lifecycle hook of the
    segment module, which is not among the sources.  It "reinitialize[s]
    a throwaway segment for the thread": a segment is mapped, at a base
    the outside world chooses, and bound to the thread. *)
Definition threadInit : M unit :=
  modify (fun s =>
    let b := threadInit_base E s in log (rds_threadInit b) (set_base b s)).

(** Modelled from the spec: [rds::threadExit()], the matching hook, which
    is not among the sources.  It "tear[s] down" the segment that is
    bound at the call. *)
Definition threadExit : M unit :=
  modify (fun s => log (rds_threadExit (tl_base s)) s).

(** The system call, with the result the operating system gives. *)
Definition call_mprotect (addr len : Z) (prot : protection) : M Z :=
  fun s =>
    let r := mprotect E s addr len prot in
    Ok r (log (sys_mprotect addr len prot r) s).

(** [protect()]. *)
Definition protect : M unit :=
  modify (set_base nullptr);;
  modify (set_regState DIRTY);;
  modify (set_protected true);;
  threadInit;;
  pbegin ← gets (persistentSection_begin E);
  base ← gets tl_base;
  let protlen := pbegin - base in
  base' ← gets tl_base;
  result ← call_mprotect base' protlen PROT_READ;
  always_assert (result =? 0) always_assert_mprotect.

(** [deprotect(base, state, prot)]. *)
Definition deprotect (base : Z) (state : VMRegState) (prot : bool) : M unit :=
  threadExit;;
  modify (set_protected prot);;
  modify (set_regState state);;
  modify (set_base base).

(** Reading a member through a pointer to a guard: defined only while
    the object is live. *)
Definition deref (p : Z) : M AssertVMUnused :=
  o ← gets (fun s => guards s !! p);
  match o with
  | Some g => mret g
  | None => abort dangling_guard
  end.

(** [AssertVMUnused::AssertVMUnused()], for the object at address [this]. *)
Definition AssertVMUnused_ctor (this : Z) : M unit :=
  b ← gets tl_base;                             (* : m_oldBase(rds::tl_base) *)
  st ← gets tl_regState;                        (* , m_oldState(tl_regState) *)
  p ← gets is_protected;                        (* , m_oldProt(is_protected) *)
  modify (fun s => set_guards (<[this := MkAssertVMUnused b st p]> (guards s)) s);;
  base ← gets tl_base;
  if base =? nullptr then mret tt else
  top ← gets tl_top_prot;
  (if top =? nullptr then modify (set_top_prot this) else mret tt);;
  protect.

(** [AssertVMUnused::~AssertVMUnused()]; the object's lifetime ends with
    it. *)
Definition AssertVMUnused_dtor (this : Z) : M unit :=
  self ← deref this;
  (if m_oldBase self =? nullptr then mret tt else
   deprotect (m_oldBase self) (m_oldState self) (m_oldProt self);;
   top ← gets tl_top_prot;
   if top =? this then modify (set_top_prot nullptr) else mret tt);;
  modify (fun s => set_guards (delete this (guards s)) s).

(** [AssertVMUnusedDisabler::AssertVMUnusedDisabler()]. *)
Definition AssertVMUnusedDisabler_ctor : M unit :=
  prot ← gets tl_top_prot;
  if prot =? nullptr then mret tt else
  g ← deref prot;
  deprotect (m_oldBase g) (m_oldState g) (m_oldProt g).

(** [AssertVMUnusedDisabler::~AssertVMUnusedDisabler()]. *)
Definition AssertVMUnusedDisabler_dtor : M unit :=
  top ← gets tl_top_prot;
  if top =? nullptr then mret tt else protect.

(** *** Scopes

    A C++ block that declares a guard runs the constructor, the body, and
    the destructor, in that order. *)

Definition with_AssertVMUnused (this : Z) (body : M unit) : M unit :=
  AssertVMUnused_ctor this;; body;; AssertVMUnused_dtor this.

Definition with_Disabler (body : M unit) : M unit :=
  AssertVMUnusedDisabler_ctor;; body;; AssertVMUnusedDisabler_dtor.

(** [n] disablers, each declared inside the scope of the one before. *)
Fixpoint nested_disablers (n : nat) : M unit :=
  match n with
  | O => mret tt
  | S k => with_Disabler (nested_disablers k)
  end.

Definition with_VMRegAnchor (body : M unit) : M unit :=
  a ← VMRegAnchor_ctor; body;; VMRegAnchor_dtor a.

Definition with_VMRegAnchor_ar (ar : Z) (body : M unit) : M unit :=
  a ← VMRegAnchor_ctor_ar ar; body;; VMRegAnchor_dtor a.

End Program.

(** ** Vocabulary of the statements *)

(** A computation that leaves the guard objects and the top-level
    reference as it found them, however it ends. *)
Definition keeps_guards {A} (c : M A) : Prop :=
  forall s, guards (final (c s)) = guards s /\
            tl_top_prot (final (c s)) = tl_top_prot s.

(** The state [protect()] works on once it has cleared the handle and
    set the two flags, just before it asks for a new segment. *)
Definition cleared (s : vm) : vm :=
  set_protected true (set_regState DIRTY (set_base nullptr s)).

(** What the member initialisers of [AssertVMUnused] store. *)
Definition snapshot (s : vm) : AssertVMUnused :=
  MkAssertVMUnused (tl_base s) (tl_regState s) (is_protected s).

(** The thread state once the object at [this] has its members. *)
Definition constructed (this : Z) (s : vm) : vm :=
  set_guards (<[this := snapshot s]> (guards s)) s.

(** The end of the lifetime of the object at [this]. *)
Definition destroyed (this : Z) (s : vm) : vm :=
  set_guards (delete this (guards s)) s.

(** The top-level reference points at a live guard, when it is set. *)
Definition top_is_live (s : vm) : Prop :=
  tl_top_prot s <> nullptr -> is_Some (guards s !! tl_top_prot s).

(** ** Uses of the guards

    The shapes a function body can give to the scopes of guards and
    disablers: nothing, one block after another, a block under a guard
    declared at address [this], a block under a disabler. *)
Inductive block : Set :=
| Skip
| Seq (b1 b2 : block)
| UnderGuard (this : Z) (body : block)
| UnderDisabler (body : block).

Section Blocks.

Variable E : Env.

Fixpoint run_block (b : block) : M unit :=
  match b with
  | Skip => mret tt
  | Seq b1 b2 => (run_block b1;; run_block b2)
  | UnderGuard this body => with_AssertVMUnused E this (run_block body)
  | UnderDisabler body => with_Disabler E (run_block body)
  end.

End Blocks.

(** The guard addresses a block declares. *)
Fixpoint declares (g : Z) (b : block) : Prop :=
  match b with
  | Skip => False
  | Seq b1 b2 => declares g b1 \/ declares g b2
  | UnderGuard this body => g = this \/ declares g body
  | UnderDisabler body => declares g body
  end.

(** A block is well scoped under the guards [live] when every guard it
    declares is an object: its address is not null and differs from the
    addresses of the guards whose scope it is declared in. *)
Fixpoint well_scoped (live : list Z) (b : block) : Prop :=
  match b with
  | Skip => True
  | Seq b1 b2 => well_scoped live b1 /\ well_scoped live b2
  | UnderGuard this body =>
      this <> nullptr /\ (this ∉ live) /\ well_scoped (this :: live) body
  | UnderDisabler body => well_scoped live body
  end.

(** The guard objects of the state are among [live], and the top-level
    reference, when set, is one of them. *)
Definition guards_among (live : list Z) (s : vm) : Prop :=
  (forall g, g ∉ live -> guards s !! g = None) /\
  (tl_top_prot s = nullptr \/ tl_top_prot s ∈ live).

(** A computation that only adds to the trace of outside calls, however
    it ends. *)
Definition extends_trace {A} (c : M A) : Prop :=
  forall s, exists t, trace (final (c s)) = trace s ++ t.

(** ** JIT timers

    A shallow embedding of [hphp/runtime/vm/jit/timer.cpp]: the
    thread-local counters and the scoped [Timer].  The declarations of
    [timer.h] are not among the sources; the members are those the code
    uses, the integers are taken to be the [int64_t] of [stop()], with
    their wrap-around written out, and a timer name is the index of its
    counter.  The value the CPU clock shows at a call is an argument of
    the call. *)

Definition wrap64 (z : Z) : Z := (z + 2 ^ 63) mod 2 ^ 64 - 2 ^ 63.

(** [Timer::Counter]. *)
Record Counter : Set := MkCounter {
  Counter_total : Z;
  Counter_count : Z;
  Counter_max : Z
}.

(** The data members of a [Timer]. *)
Record Timer : Set := MkTimer {
  m_name : nat;
  m_finished : bool;
  m_start : Z;
  m_log_entry : Z          (* StructuredLogEntry*, by address *)
}.

(** The timer state of a thread: the counters, and the calls of
    [setInt(key, value)] made on log entries, in order. *)
Record timers : Type := MkTimers {
  s_counters : list Counter;
  setInt_calls : list (Z * string * Z)
}.

Inductive timer_failure : Set :=
| assertx_not_finished     (* assertx(!m_finished) *)
| index_out_of_range.      (* a name that has no counter or no string *)

Inductive timer_result (A : Type) : Type :=
| Done (a : A)
| Stopped (f : timer_failure).
Arguments Done {A} a.
Arguments Stopped {A} f.

Section JitTimer.

(** [RuntimeOption::EvalJitTimer]. *)
Variable EvalJitTimer : bool.

(** The strings of the table [s_names], which the macro [JIT_TIMERS]
    lists in the order of the names. *)
Variable s_names : list string.

(** [getCPUTimeNanos()]. *)
Definition getCPUTimeNanos (clock : Z) : Z :=
  if EvalJitTimer then clock else -1.

(** [Timer::Timer(Name name, StructuredLogEntry* log_entry)]. *)
Definition Timer_ctor (clock : Z) (name : nat) (log_entry : Z) : Timer :=
  MkTimer name false (getCPUTimeNanos clock) log_entry.

(** [Timer::stop()]: the value returned, the timer and the thread state
    after the call. *)
Definition Timer_stop (clock : Z) (self : Timer) (st : timers)
  : timer_result (Z * Timer * timers) :=
  if negb EvalJitTimer then Done (0, self, st) else
  if m_finished self then Stopped assertx_not_finished else
  let elapsed := wrap64 (getCPUTimeNanos clock - m_start self) in
  let logged :=
    if m_log_entry self =? nullptr then Done (setInt_calls st) else
    match s_names !! m_name self with
    | Some str =>
        Done (setInt_calls st ++
              [(m_log_entry self, String.append str "_micros",
                Z.quot elapsed 1000)])
    | None => Stopped index_out_of_range
    end in
  match logged, s_counters st !! m_name self with
  | Done calls, Some counter =>
      let counter' :=
        MkCounter (wrap64 (Counter_total counter + elapsed))
                  (wrap64 (Counter_count counter + 1))
                  (Z.max (Counter_max counter) elapsed) in
      Done (elapsed,
            MkTimer (m_name self) true (m_start self) (m_log_entry self),
            MkTimers (<[m_name self := counter']> (s_counters st)) calls)
  | Stopped f, _ => Stopped f
  | _, None => Stopped index_out_of_range
  end.

(** [Timer::~Timer()]. *)
Definition Timer_dtor (clock : Z) (self : Timer) (st : timers)
  : timer_result timers :=
  if m_finished self then Done st else
  match Timer_stop clock self st with
  | Done (_, _, st') => Done st'
  | Stopped f => Stopped f
  end.

(** [Timer::CounterValue(Name name)]. *)
Definition Timer_CounterValue (name : nat) (st : timers) : option Counter :=
  s_counters st !! name.

(** [Timer::RequestInit()]: every counter is set to zero. *)
Definition Timer_RequestInit (st : timers) : timers :=
  MkTimers (replicate (length (s_counters st)) (MkCounter 0 0 0))
           (setInt_calls st).

(** A timer that lives from clock value [from] to clock value [to] and
    is never stopped by hand, and a run of such lifetimes one after the
    other. *)
Definition Timer_lifetime (name : nat) (from to : Z) (st : timers)
  : timer_result timers :=
  Timer_dtor to (Timer_ctor from name nullptr) st.

Fixpoint Timer_lifetimes (l : list (nat * Z * Z)) (st : timers)
  : timer_result timers :=
  match l with
  | [] => Done st
  | (name, from, to) :: l' =>
      match Timer_lifetime name from to st with
      | Done st' => Timer_lifetimes l' st'
      | Stopped f => Stopped f
      end
  end.

End JitTimer.

(** The elapsed times a run of lifetimes holds for the timer [name]. *)
Definition elapsed_of (name : nat) (l : list (nat * Z * Z)) : list Z :=
  map (fun x => snd x - snd (fst x))
      (filter (fun x => fst (fst x) = name) l).

Definition sum_Z (l : list Z) : Z := fold_right Z.add 0 l.
Definition max_Z (l : list Z) : Z := fold_right Z.max 0 l.

(** ** A concrete world

    One instance of the outside world, on which the statements below can
    be evaluated: slots of 8 bytes, a callee frame at [0x1000] called from
    a frame at [0x2000] whose function starts at offset 100 of unit 7, a
    stack that spans [0x400 .. 0xFFFF], and an operating system whose
    page protection succeeds. *)

Definition demo_frames (a : Z) : ActRec :=
  if a =? 0x1000 then MkActRec (MkFunc 9 40) 5 2 false
  else if a =? 0x3000 then MkActRec (MkFunc 9 40) 5 2 true
  else MkActRec (MkFunc 7 100) 0 0 false.

Definition demo_env : Env :=
  MkEnv 8 demo_frames (fun _ => 0x2000) (fun u off => u * 0x10000 + off)
        (fun a => (0x400 <=? a) && (a <? 0x10000))
        (fun _ => true) (fun _ => MkVMRegs 1 2 3)
        (fun s => 0x50000 + 0x1000 * Z.of_nat (length (trace s)))
        (fun s => tl_base s + 0x800)
        (fun _ _ _ _ => 0).

(** The same world with an operating system that refuses to change page
    protection. *)
Definition failing_env : Env :=
  MkEnv 8 demo_frames (fun _ => 0x2000) (fun u off => u * 0x10000 + off)
        (fun a => (0x400 <=? a) && (a <? 0x10000))
        (fun _ => true) (fun _ => MkVMRegs 1 2 3)
        (fun s => 0x50000 + 0x1000 * Z.of_nat (length (trace s)))
        (fun s => tl_base s + 0x800)
        (fun _ _ _ _ => -1).

(** A thread that runs compiled code: a segment bound at [0x7000], the
    registers not synchronised. *)
Definition demo_thread : vm :=
  set_regState DIRTY (thread_start (MkVMRegs 0 0 0) 0x7000).

(** A thread with no segment bound. *)
Definition unbound_thread : vm := thread_start (MkVMRegs 0 0 0) nullptr.

(** A thread on which the guard at [0x100] is active: [demo_thread]
    after the constructor of that guard. *)
Definition guarded_thread : vm :=
  final (AssertVMUnused_ctor demo_env 0x100 demo_thread).

(** Two timers, both counters at zero, and a run of three lifetimes:
    timer 0 from 10 to 25, timer 1 from 30 to 30, timer 0 from 40 to
    100. *)
Definition demo_names : list string := ["first"; "second"]%string.

Definition demo_timers : timers :=
  MkTimers [MkCounter 0 0 0; MkCounter 0 0 0] [].

Definition demo_lifetimes : list (nat * Z * Z) :=
  [(0%nat, 10, 25); (1%nat, 30, 30); (0%nat, 40, 100)].

(** * Properties *)

(** ** Running the monad *)

Ltac run :=
  cbv [VMRegAnchor_ctor VMRegAnchor_ctor_ar VMRegAnchor_dtor vmRegs vmsp
       write_regs syncVMRegs assert_native_stack_aligned
       with_VMRegAnchor with_VMRegAnchor_ar
       mbind mret M_bind M_ret gets modify abort check assert_ always_assert
       final returns].

Lemma bind_Ok_inv {A B} (c : M A) (k : A -> M B) (s s' : vm) (b : B) :
  (c ≫= k) s = Ok b s' -> exists a s1, c s = Ok a s1 /\ k a s1 = Ok b s'.
Proof.
  unfold mbind, M_bind. destruct (c s) as [a s1|f s1]; [|discriminate].
  intros H. eauto.
Qed.

Lemma bind_Ok {A B} (c : M A) (k : A -> M B) (s s1 : vm) (a : A) :
  c s = Ok a s1 -> (c ≫= k) s = k a s1.
Proof. unfold mbind, M_bind. intros ->. reflexivity. Qed.

Lemma bind_Fatal {A B} (c : M A) (k : A -> M B) (s s1 : vm) (f : failure) :
  c s = Fatal f s1 -> (c ≫= k) s = Fatal f s1.
Proof. unfold mbind, M_bind. intros ->. reflexivity. Qed.

(** ** The anchor *)

Section VMRegAnchorProperties.

Variable E : Env.

(** The frame-local constructor, when its three assertions hold: the flag
    becomes [CLEAN] and the bundle is rebuilt from the linkage of [ar]. *)
Lemma VMRegAnchor_ctor_ar_ok (ar : Z) (s : vm) :
  tl_regState s = DIRTY ->
  resumed (frame_at E ar) = false ->
  isValidAddress E (ar - numArgs (frame_at E ar) * sizeof_TypedValue E) = true ->
  let prevAr := getOuterVMFrame E ar in
  let prevF := m_func (frame_at E prevAr) in
  VMRegAnchor_ctor_ar E ar s =
    Ok (MkVMRegAnchor DIRTY)
       (set_regs
          (MkVMRegs
             (Unit_at E (Func_unit prevF) (Func_base prevF + m_soff (frame_at E ar)))
             prevAr
             (ar - numArgs (frame_at E ar) * sizeof_TypedValue E))
          (set_regState CLEAN s)).
Proof.
  intros Hd Hr Hv. run. rewrite Hd. cbn. rewrite Hr. cbn. rewrite Hv.
  reflexivity.
Qed.

(** The frame-local constructor stops at its first assertion when the
    flag is not [DIRTY], before anything is written. *)
Lemma VMRegAnchor_ctor_ar_clean (ar : Z) (s : vm) :
  tl_regState s = CLEAN ->
  VMRegAnchor_ctor_ar E ar s = Fatal assert_regState_DIRTY s.
Proof. intros Hc. run. rewrite Hc. reflexivity. Qed.

(** On a resumed frame with the flag [DIRTY] it stops at its second
    assertion: the flag has been set, the bundle has not been touched. *)
Lemma VMRegAnchor_ctor_ar_resumed_dirty (ar : Z) (s : vm) :
  tl_regState s = DIRTY ->
  resumed (frame_at E ar) = true ->
  VMRegAnchor_ctor_ar E ar s = Fatal assert_not_resumed (set_regState CLEAN s).
Proof. intros Hd Hr. run. rewrite Hd. cbn. rewrite Hr. reflexivity. Qed.

(** Both constructors keep in [m_old] the flag they found. *)
Lemma VMRegAnchor_ctor_m_old (s s1 : vm) (a : VMRegAnchor) :
  VMRegAnchor_ctor E s = Ok a s1 ->
  m_old a = tl_regState s /\ tl_regState s1 = CLEAN.
Proof.
  run. destruct (native_stack_aligned E s); [|discriminate].
  intros [= <- <-]. split; reflexivity.
Qed.

Lemma VMRegAnchor_ctor_ar_m_old (ar : Z) (s s1 : vm) (a : VMRegAnchor) :
  VMRegAnchor_ctor_ar E ar s = Ok a s1 ->
  m_old a = tl_regState s /\ tl_regState s1 = CLEAN.
Proof.
  run. destruct (tl_regState s) eqn:Hs; cbn; [discriminate|].
  destruct (resumed (frame_at E ar)); cbn; [discriminate|].
  destruct (isValidAddress E _); [|discriminate].
  intros [= <- <-]. split; reflexivity.
Qed.

(** C1. Frame-local construction on a non-resumed frame [ar] at address
    [0x1000], with the flag [DIRTY], slots of 8 bytes, a saved return
    offset of 5, two arguments and a caller whose function starts at
    offset 100: the constructor returns, and leaves the program counter
    at [unit.at(105)] of the caller's unit, the stack top at [0x0FF0] and
    the frame pointer at the caller the outer-frame lookup gave.  The
    stack top [0x0FF0] is taken to be a valid stack address, which the
    constructor asserts on the way. *)
Theorem frame_local_reconstruction_example (s : vm) (caller : Z) :
  sizeof_TypedValue E = 8 ->
  getOuterVMFrame E 0x1000 = caller ->
  Func_base (m_func (frame_at E caller)) = 100 ->
  m_soff (frame_at E 0x1000) = 5 ->
  numArgs (frame_at E 0x1000) = 2 ->
  resumed (frame_at E 0x1000) = false ->
  tl_regState s = DIRTY ->
  isValidAddress E 0x0FF0 = true ->
  exists a s',
    VMRegAnchor_ctor_ar E 0x1000 s = Ok a s' /\
    pc (vmRegsUnsafe s') =
      Unit_at E (Func_unit (m_func (frame_at E caller))) 105 /\
    stack_top (vmRegsUnsafe s') = 0x0FF0 /\
    stack_top (vmRegsUnsafe s') = 0x1000 - 2 * 8 /\
    fp (vmRegsUnsafe s') = caller /\
    tl_regState s' = CLEAN.
Proof.
  intros Hsz Hout Hbase Hsoff Hn Hres Hd Hv.
  eexists _, _. split.
  - apply VMRegAnchor_ctor_ar_ok; [exact Hd | exact Hres |].
    rewrite Hn, Hsz. exact Hv.
  - cbn. rewrite Hout, Hbase, Hsoff, Hn, Hsz. repeat split.
Qed.

(** C6. Release of an anchor, built by either constructor from state
    [s], writes back the flag found in [s] and nothing else: run in any
    later state [s2] it returns [s2] with only the flag changed, so the
    bundle is as the scope left it.  The anchor has made the flag
    [CLEAN]; a full-sync anchor nested directly inside it therefore
    restores [CLEAN] at its release, and the outer release then restores
    the flag of [s]. *)
Theorem anchor_release_restores_flag (s s1 s2 : vm) (a : VMRegAnchor) :
  (VMRegAnchor_ctor E s = Ok a s1 \/
   exists ar, VMRegAnchor_ctor_ar E ar s = Ok a s1) ->
  VMRegAnchor_dtor a s2 = Ok tt (set_regState (tl_regState s) s2) /\
  tl_regState (final (VMRegAnchor_dtor a s2)) = tl_regState s /\
  vmRegsUnsafe (final (VMRegAnchor_dtor a s2)) = vmRegsUnsafe s2 /\
  tl_regState s1 = CLEAN /\
  forall inner s3 s4,
    VMRegAnchor_ctor E s1 = Ok inner s3 ->
    VMRegAnchor_dtor inner s4 = Ok tt (set_regState CLEAN s4) /\
    vmRegsUnsafe (final (VMRegAnchor_dtor inner s4)) = vmRegsUnsafe s4.
Proof.
  intros H.
  assert (m_old a = tl_regState s /\ tl_regState s1 = CLEAN) as [Hm Hc].
  { destruct H as [H | [ar H]].
    - exact (VMRegAnchor_ctor_m_old _ _ _ H).
    - exact (VMRegAnchor_ctor_ar_m_old _ _ _ _ H). }
  run. rewrite Hm. repeat split; try assumption.
  apply VMRegAnchor_ctor_m_old in H0 as [Hi _]. congruence.
Qed.

(** Scopes: an anchor scope that is left normally ends with the flag it
    started with, and so does a scope nested in another. *)
Lemma with_VMRegAnchor_flag (body : M unit) (s s' : vm) :
  with_VMRegAnchor E body s = Ok tt s' -> tl_regState s' = tl_regState s.
Proof.
  unfold with_VMRegAnchor. intros H.
  apply bind_Ok_inv in H as (a & s1 & Hc & H).
  apply bind_Ok_inv in H as ([] & s2 & _ & Hd).
  apply VMRegAnchor_ctor_m_old in Hc as [Hm _].
  revert Hd. run. intros [= <-]. exact Hm.
Qed.

Lemma with_VMRegAnchor_ar_flag (ar : Z) (body : M unit) (s s' : vm) :
  with_VMRegAnchor_ar E ar body s = Ok tt s' -> tl_regState s' = tl_regState s.
Proof.
  unfold with_VMRegAnchor_ar. intros H.
  apply bind_Ok_inv in H as (a & s1 & Hc & H).
  apply bind_Ok_inv in H as ([] & s2 & _ & Hd).
  apply VMRegAnchor_ctor_ar_m_old in Hc as [Hm _].
  revert Hd. run. intros [= <-]. exact Hm.
Qed.

(** C7. With the flag [CLEAN] the frame-local constructor aborts at its
    first assertion; the thread state at the abort is the state at the
    call, so no part of the reconstruction has run. *)
Theorem frame_local_requires_dirty (ar : Z) (s : vm) :
  tl_regState s = CLEAN ->
  VMRegAnchor_ctor_ar E ar s = Fatal assert_regState_DIRTY s /\
  returns (VMRegAnchor_ctor_ar E ar s) = false /\
  vmRegsUnsafe (final (VMRegAnchor_ctor_ar E ar s)) = vmRegsUnsafe s.
Proof.
  intros Hc. rewrite (VMRegAnchor_ctor_ar_clean ar s Hc). repeat split.
Qed.

(** C8. On a resumed frame the frame-local constructor aborts at an
    assertion whatever the flag is: at the flag assertion when the flag
    is [CLEAN], at [assert(!ar->resumed())] when it is [DIRTY].  In both
    cases the bundle is the one found at the call: neither the stack
    top, nor the program counter, nor the frame pointer is written. *)
Theorem frame_local_rejects_resumed (ar : Z) (s : vm) :
  resumed (frame_at E ar) = true ->
  (exists f s',
      VMRegAnchor_ctor_ar E ar s = Fatal f s' /\
      (f = assert_regState_DIRTY \/ f = assert_not_resumed) /\
      vmRegsUnsafe s' = vmRegsUnsafe s) /\
  (tl_regState s = DIRTY ->
   VMRegAnchor_ctor_ar E ar s = Fatal assert_not_resumed (set_regState CLEAN s)).
Proof.
  intros Hr. split.
  - destruct (tl_regState s) eqn:Hs.
    + exists assert_regState_DIRTY, s.
      rewrite (VMRegAnchor_ctor_ar_clean ar s Hs). auto.
    + exists assert_not_resumed, (set_regState CLEAN s).
      rewrite (VMRegAnchor_ctor_ar_resumed_dirty ar s Hs Hr). auto.
  - intros Hs. apply VMRegAnchor_ctor_ar_resumed_dirty; assumption.
Qed.

End VMRegAnchorProperties.

(** ** The guard *)

Lemma keeps_guards_bind {A B} (c : M A) (k : A -> M B) :
  keeps_guards c -> (forall a, keeps_guards (k a)) -> keeps_guards (c ≫= k).
Proof.
  intros Hc Hk s. specialize (Hc s). unfold mbind, M_bind.
  destruct (c s) as [a s1|f s1]; cbn in *; [|exact Hc].
  destruct (Hk a s1) as [Hg Ht]. destruct Hc as [Hg1 Ht1].
  split; congruence.
Qed.

Lemma keeps_guards_ret {A} (a : A) : keeps_guards (mret a : M A).
Proof. intros s. split; reflexivity. Qed.

Ltac run_guard :=
  cbv [AssertVMUnused_ctor AssertVMUnused_dtor AssertVMUnusedDisabler_ctor
       AssertVMUnusedDisabler_dtor protect deprotect deref threadInit
       threadExit call_mprotect
       mbind mret M_bind M_ret gets modify abort check assert_ always_assert
       final returns].

Section GuardProperties.

Variable E : Env.

(** What [protect()] does, step by step. *)
Lemma protect_steps (s : vm) :
  let b := threadInit_base E (cleared s) in
  let s1 := log (rds_threadInit b) (set_base b (cleared s)) in
  let len := persistentSection_begin E s1 - b in
  let r := mprotect E s1 b len PROT_READ in
  let s2 := log (sys_mprotect b len PROT_READ r) s1 in
  protect E s =
    if r =? 0 then Ok tt s2 else Fatal always_assert_mprotect s2.
Proof.
  cbv zeta. run_guard. cbn.
  destruct (mprotect E _ _ _ _ =? 0); reflexivity.
Qed.

Lemma protect_final (s : vm) :
  let s' := final (protect E s) in
  tl_regState s' = DIRTY /\ is_protected s' = true /\
  tl_base s' = threadInit_base E (cleared s) /\
  tl_top_prot s' = tl_top_prot s /\ guards s' = guards s /\
  vmRegsUnsafe s' = vmRegsUnsafe s.
Proof.
  cbv zeta. rewrite protect_steps.
  destruct (mprotect E _ _ _ _ =? 0); cbn; repeat split.
Qed.

Lemma protect_returns (s : vm) :
  (forall st a l, mprotect E st a l PROT_READ = 0) ->
  protect E s = Ok tt (final (protect E s)).
Proof.
  intros Hos. rewrite protect_steps. rewrite Hos. reflexivity.
Qed.

Lemma protect_keeps_guards : keeps_guards (protect E).
Proof. intros s. pose proof (protect_final s) as H. cbv zeta in H. tauto. Qed.

(** [deprotect] always returns: one [threadExit], then the three writes. *)
Lemma deprotect_steps (base : Z) (state : VMRegState) (prot : bool) (s : vm) :
  deprotect base state prot s =
    Ok tt (set_base base (set_regState state (set_protected prot
             (log (rds_threadExit (tl_base s)) s)))).
Proof. reflexivity. Qed.

Lemma deprotect_keeps_guards base state prot :
  keeps_guards (deprotect base state prot).
Proof. intros s. rewrite deprotect_steps. split; reflexivity. Qed.

Lemma Disabler_ctor_keeps_guards : keeps_guards AssertVMUnusedDisabler_ctor.
Proof.
  intros s. run_guard.
  destruct (tl_top_prot s =? nullptr); [split; reflexivity|].
  destruct (guards s !! tl_top_prot s); split; reflexivity.
Qed.

Lemma Disabler_dtor_keeps_guards : keeps_guards (AssertVMUnusedDisabler_dtor E).
Proof.
  intros s. unfold AssertVMUnusedDisabler_dtor, gets, mbind, M_bind.
  destruct (tl_top_prot s =? nullptr); [split; reflexivity|].
  apply protect_keeps_guards.
Qed.

Lemma with_Disabler_keeps_guards (body : M unit) :
  keeps_guards body -> keeps_guards (with_Disabler E body).
Proof.
  intros Hb. unfold with_Disabler.
  apply keeps_guards_bind; [apply Disabler_ctor_keeps_guards|intros _].
  apply keeps_guards_bind; [exact Hb|intros _].
  apply Disabler_dtor_keeps_guards.
Qed.

Lemma nested_disablers_keeps_guards (n : nat) :
  keeps_guards (nested_disablers E n).
Proof.
  induction n as [|n IH]; cbn [nested_disablers].
  - apply keeps_guards_ret.
  - apply with_Disabler_keeps_guards, IH.
Qed.

Lemma protect_trace (s : vm) :
  let b := threadInit_base E (cleared s) in
  let sp := log (rds_threadInit b) (set_base b (cleared s)) in
  let len := persistentSection_begin E sp - b in
  let r := mprotect E sp b len PROT_READ in
  trace (final (protect E s)) =
    trace s ++ [rds_threadInit b; sys_mprotect b len PROT_READ r] /\
  (r = 0 -> protect E s = Ok tt (final (protect E s))) /\
  (r <> 0 -> protect E s = Fatal always_assert_mprotect (final (protect E s))).
Proof.
  rewrite protect_steps. cbv zeta.
  set (b := threadInit_base E (cleared s)).
  set (sp := log (rds_threadInit b) (set_base b (cleared s))).
  set (len := persistentSection_begin E sp - b).
  set (r := mprotect E sp b len PROT_READ).
  split; [|split].
  - destruct (r =? 0); cbn; rewrite <- app_assoc; reflexivity.
  - intros ->. reflexivity.
  - intros Hr. apply Z.eqb_neq in Hr. rewrite Hr. reflexivity.
Qed.

(** The constructor of [AssertVMUnused], by cases on the bound segment. *)
Lemma AssertVMUnused_ctor_unbound (this : Z) (s : vm) :
  tl_base s = nullptr ->
  AssertVMUnused_ctor E this s = Ok tt (constructed this s).
Proof.
  intros Hb. unfold AssertVMUnused_ctor, gets, modify, mbind, M_bind.
  unfold constructed, snapshot. cbn. rewrite Hb. reflexivity.
Qed.

Lemma AssertVMUnused_ctor_bound (this : Z) (s : vm) :
  tl_base s <> nullptr ->
  AssertVMUnused_ctor E this s =
    protect E (if tl_top_prot s =? nullptr
               then set_top_prot this (constructed this s)
               else constructed this s).
Proof.
  intros Hb. apply Z.eqb_neq in Hb.
  unfold AssertVMUnused_ctor, gets, modify, mbind, M_bind.
  cbn [tl_base set_guards]. rewrite Hb.
  cbn [tl_top_prot set_guards].
  destruct (tl_top_prot s =? nullptr); reflexivity.
Qed.

(** The destructor of [AssertVMUnused], by cases on the saved handle. *)
Lemma AssertVMUnused_dtor_unbound (this : Z) (s : vm) (g : AssertVMUnused) :
  guards s !! this = Some g -> m_oldBase g = nullptr ->
  AssertVMUnused_dtor this s = Ok tt (destroyed this s).
Proof.
  intros Hg Hb. run_guard. rewrite Hg, Hb. reflexivity.
Qed.

Lemma AssertVMUnused_dtor_bound (this : Z) (s : vm) (g : AssertVMUnused) :
  guards s !! this = Some g -> m_oldBase g <> nullptr ->
  exists s',
    AssertVMUnused_dtor this s = Ok tt s' /\
    triple s' = saved_triple g /\
    tl_top_prot s' =
      (if tl_top_prot s =? this then nullptr else tl_top_prot s) /\
    guards s' = delete this (guards s) /\
    trace s' = trace s ++ [rds_threadExit (tl_base s)].
Proof.
  intros Hg Hb. apply Z.eqb_neq in Hb. run_guard. rewrite Hg, Hb. cbn.
  destruct (tl_top_prot s =? this); eexists; (split; [reflexivity|]);
    repeat split.
Qed.

(** The constructor and the destructor of the disabler, with a top-level
    guard recorded. *)
Lemma Disabler_ctor_active (s : vm) (g : AssertVMUnused) :
  tl_top_prot s <> nullptr -> guards s !! tl_top_prot s = Some g ->
  AssertVMUnusedDisabler_ctor s =
    deprotect (m_oldBase g) (m_oldState g) (m_oldProt g) s.
Proof.
  intros Ht Hg. apply Z.eqb_neq in Ht.
  unfold AssertVMUnusedDisabler_ctor, deref, gets, mbind, M_bind.
  rewrite Ht, Hg. reflexivity.
Qed.

Lemma Disabler_dtor_active (s : vm) :
  tl_top_prot s <> nullptr -> AssertVMUnusedDisabler_dtor E s = protect E s.
Proof.
  intros Ht. apply Z.eqb_neq in Ht.
  unfold AssertVMUnusedDisabler_dtor, gets, mbind, M_bind.
  rewrite Ht. reflexivity.
Qed.

Lemma Disabler_ctor_inactive (s : vm) :
  tl_top_prot s = nullptr -> AssertVMUnusedDisabler_ctor s = Ok tt s.
Proof.
  intros Ht. unfold AssertVMUnusedDisabler_ctor, gets, mbind, M_bind.
  rewrite Ht. reflexivity.
Qed.

Lemma Disabler_dtor_inactive (s : vm) :
  tl_top_prot s = nullptr -> AssertVMUnusedDisabler_dtor E s = Ok tt s.
Proof.
  intros Ht. unfold AssertVMUnusedDisabler_dtor, gets, mbind, M_bind.
  rewrite Ht. reflexivity.
Qed.

(** With an operating system that never refuses, and a live top-level
    guard if any, nested disablers run to completion. *)
Lemma nested_disablers_returns (n : nat) (s : vm) :
  (forall st a l, mprotect E st a l PROT_READ = 0) ->
  top_is_live s ->
  exists s', nested_disablers E n s = Ok tt s'.
Proof.
  intros Hos. revert s. induction n as [|n IH]; intros s Hlive.
  - eexists. reflexivity.
  - cbn [nested_disablers]. unfold with_Disabler.
    destruct (Z.eq_dec (tl_top_prot s) nullptr) as [Hn|Hn].
    + rewrite (bind_Ok _ _ _ _ _ (Disabler_ctor_inactive s Hn)).
      destruct (IH s Hlive) as [s2 H2].
      rewrite (bind_Ok _ _ _ _ _ H2).
      destruct (nested_disablers_keeps_guards n s) as [_ Ht].
      rewrite H2 in Ht. cbn in Ht.
      rewrite Disabler_dtor_inactive by congruence. eauto.
    + destruct (Hlive Hn) as [g Hg].
      pose proof (Disabler_ctor_active s g Hn Hg) as Hc.
      rewrite deprotect_steps in Hc.
      match type of Hc with _ = Ok tt ?x => set (s1 := x) in Hc end.
      rewrite (bind_Ok _ _ _ _ _ Hc).
      destruct (IH s1) as [s2 H2].
      { intros _. exists g. exact Hg. }
      rewrite (bind_Ok _ _ _ _ _ H2).
      destruct (nested_disablers_keeps_guards n s1) as [_ Ht].
      rewrite H2 in Ht. cbn in Ht.
      rewrite Disabler_dtor_active by (rewrite Ht; exact Hn).
      rewrite (protect_returns s2 Hos). eauto.
Qed.

(** A guard around any body that leaves the guard objects alone: if the
    scope is left normally, the triple is the one found on entry. *)
Lemma with_AssertVMUnused_restores (this : Z) (body : M unit) (s s' : vm) :
  tl_base s <> nullptr ->
  keeps_guards body ->
  with_AssertVMUnused E this body s = Ok tt s' ->
  triple s' = triple s.
Proof.
  intros Hb Hk H. unfold with_AssertVMUnused in H.
  apply bind_Ok_inv in H as ([] & s1 & Hc & H).
  apply bind_Ok_inv in H as ([] & s2 & Hbody & Hd).
  assert (guards s1 !! this = Some (snapshot s)) as Hg1.
  { rewrite (AssertVMUnused_ctor_bound this s Hb) in Hc.
    match type of Hc with protect E ?x = _ =>
      destruct (protect_keeps_guards x) as [Hg _] end.
    rewrite Hc in Hg. cbn in Hg. rewrite Hg.
    destruct (tl_top_prot s =? nullptr); cbn; apply lookup_insert_eq. }
  assert (guards s2 !! this = Some (snapshot s)) as Hg2.
  { destruct (Hk s1) as [Hg _]. rewrite Hbody in Hg. cbn in Hg.
    rewrite Hg. exact Hg1. }
  destruct (AssertVMUnused_dtor_bound this s2 _ Hg2 Hb)
    as (s3 & Hd' & Htr & _).
  rewrite Hd' in Hd. injection Hd as <-. exact Htr.
Qed.

(** C2. Construction of a guard on a thread with a segment bound runs
    [protect()]: the live handle is cleared and the flag and the
    protection flag are forced ([sc]) before a throwaway segment is
    asked for; that segment, at [b], is then the bound one, and one call
    of [mprotect] makes [len] bytes from [b] read-only, [len] being the
    distance from [b] to the start of the persistent section.  Nothing
    else reaches the segment module or the operating system.  The
    constructor returns when [mprotect] returned 0 and aborts at
    [always_assert] otherwise. *)
Theorem guard_construction_protects (this : Z) (s : vm) :
  tl_base s <> nullptr ->
  exists sc sp b len r,
    (* the state in which the new segment is asked for *)
    tl_base sc = nullptr /\ tl_regState sc = DIRTY /\ is_protected sc = true /\
    vmRegsUnsafe sc = vmRegsUnsafe s /\ trace sc = trace s /\
    guards sc = <[this := snapshot s]> (guards s) /\
    tl_top_prot sc =
      (if tl_top_prot s =? nullptr then this else tl_top_prot s) /\
    (* the throwaway segment, and the state in which it is bound *)
    b = threadInit_base E sc /\
    sp = log (rds_threadInit b) (set_base b sc) /\
    (* the region and the call that protects it *)
    len = persistentSection_begin E sp - b /\
    r = mprotect E sp b len PROT_READ /\
    (* where the constructor ends *)
    final (AssertVMUnused_ctor E this s) =
      log (sys_mprotect b len PROT_READ r) sp /\
    trace (final (AssertVMUnused_ctor E this s)) =
      trace s ++ [rds_threadInit b; sys_mprotect b len PROT_READ r] /\
    tl_base (final (AssertVMUnused_ctor E this s)) = b /\
    tl_regState (final (AssertVMUnused_ctor E this s)) = DIRTY /\
    is_protected (final (AssertVMUnused_ctor E this s)) = true /\
    (r = 0 ->
     AssertVMUnused_ctor E this s =
       Ok tt (final (AssertVMUnused_ctor E this s))) /\
    (r <> 0 ->
     AssertVMUnused_ctor E this s =
       Fatal always_assert_mprotect (final (AssertVMUnused_ctor E this s))).
Proof.
  intros Hb. rewrite (AssertVMUnused_ctor_bound this s Hb).
  set (s0 := if tl_top_prot s =? nullptr
             then set_top_prot this (constructed this s)
             else constructed this s).
  assert (trace s0 = trace s /\ vmRegsUnsafe s0 = vmRegsUnsafe s /\
          guards s0 = <[this := snapshot s]> (guards s) /\
          tl_top_prot s0 =
            (if tl_top_prot s =? nullptr then this else tl_top_prot s))
    as (Htr & Hregs & Hgs & Htop)
    by (unfold s0; destruct (tl_top_prot s =? nullptr); repeat split).
  pose proof (protect_trace s0) as (Ht & Hok & Hko).
  pose proof (protect_final s0) as (Hst & Hp & Hbase & _).
  rewrite Htr in Ht.
  exists (cleared s0).
  exists (log (rds_threadInit (threadInit_base E (cleared s0)))
              (set_base (threadInit_base E (cleared s0)) (cleared s0))).
  eexists _, _, _.
  split; [reflexivity|]. split; [reflexivity|]. split; [reflexivity|].
  split; [exact Hregs|]. split; [exact Htr|]. split; [exact Hgs|].
  split; [exact Htop|].
  split; [reflexivity|]. split; [reflexivity|]. split; [reflexivity|].
  split; [reflexivity|].
  split.
  { rewrite protect_steps. cbv zeta.
    destruct (mprotect E _ _ _ _ =? 0); reflexivity. }
  split; [exact Ht|]. split; [exact Hbase|].
  split; [exact Hst|]. split; [exact Hp|].
  split; [exact Hok | exact Hko].
Qed.

(** C3. A guard on a thread with a segment bound, around disablers
    nested to any depth [n], each released before the one that encloses
    it and all of them before the guard: whenever the scope is left
    normally, the triple of segment handle, flag and protection flag is
    the one found just before the guard was constructed; and the scope
    is left normally when the operating system never refuses
    [mprotect] and the top-level reference, if set on entry, points at a
    live guard. *)
Theorem guard_restores_triple (this : Z) (n : nat) (s : vm) :
  tl_base s <> nullptr ->
  (forall s',
      with_AssertVMUnused E this (nested_disablers E n) s = Ok tt s' ->
      triple s' = triple s) /\
  ((forall st a l, mprotect E st a l PROT_READ = 0) ->
   top_is_live s ->
   exists s',
     with_AssertVMUnused E this (nested_disablers E n) s = Ok tt s' /\
     triple s' = triple s).
Proof.
  intros Hb.
  assert (forall s',
      with_AssertVMUnused E this (nested_disablers E n) s = Ok tt s' ->
      triple s' = triple s) as Hpart.
  { intros s' H.
    exact (with_AssertVMUnused_restores this _ s s' Hb
             (nested_disablers_keeps_guards n) H). }
  split; [exact Hpart|].
  intros Hos Hlive.
  cut (exists s', with_AssertVMUnused E this (nested_disablers E n) s = Ok tt s').
  { intros [s' H]. exists s'. split; [exact H | exact (Hpart s' H)]. }
  unfold with_AssertVMUnused.
  pose proof (AssertVMUnused_ctor_bound this s Hb) as Hc.
  set (s0 := if tl_top_prot s =? nullptr
             then set_top_prot this (constructed this s)
             else constructed this s) in Hc.
  rewrite (protect_returns s0 Hos) in Hc.
  destruct (protect_keeps_guards s0) as [Hg1 Ht1].
  set (s1 := final (protect E s0)) in *.
  assert (guards s1 !! this = Some (snapshot s)) as Hthis.
  { rewrite Hg1. unfold s0.
    destruct (tl_top_prot s =? nullptr); cbn; apply lookup_insert_eq. }
  assert (top_is_live s1) as Hlive1.
  { intros _. rewrite Hg1, Ht1. unfold s0.
    destruct (tl_top_prot s =? nullptr) eqn:Htop; cbn.
    - rewrite lookup_insert_eq. eauto.
    - apply Z.eqb_neq in Htop. apply lookup_insert_is_Some'.
      right. exact (Hlive Htop). }
  rewrite (bind_Ok _ _ _ _ _ Hc).
  destruct (nested_disablers_returns n s1 Hos Hlive1) as [s2 H2].
  rewrite (bind_Ok _ _ _ _ _ H2).
  destruct (nested_disablers_keeps_guards n s1) as [Hg2 _].
  rewrite H2 in Hg2. cbn in Hg2.
  destruct (AssertVMUnused_dtor_bound this s2 (snapshot s)) as (s3 & Hd & _).
  - rewrite Hg2. exact Hthis.
  - exact Hb.
  - eauto.
Qed.

(** C4. While a guard [g1] is recorded as the top-level guard, the
    constructor of another guard [g2] leaves the reference at [g1],
    whether it protects or not and whether it returns or aborts; the
    destructor of [g2] leaves it at [g1] too; the destructor of [g1], a
    guard that saved a bound segment, returns with the reference
    cleared.  A guard is recorded in the first place when it is
    constructed on a thread with a segment bound and no guard
    recorded. *)
Theorem second_guard_is_not_top_level (g1 g2 : Z) (s : vm) :
  tl_top_prot s = g1 -> g1 <> nullptr -> g2 <> g1 ->
  tl_top_prot (final (AssertVMUnused_ctor E g2 s)) = g1 /\
  tl_top_prot (final (AssertVMUnused_dtor g2 s)) = g1 /\
  (forall g, guards s !! g1 = Some g -> m_oldBase g <> nullptr ->
     exists s', AssertVMUnused_dtor g1 s = Ok tt s' /\
                tl_top_prot s' = nullptr) /\
  (forall s0, tl_top_prot s0 = nullptr -> tl_base s0 <> nullptr ->
     tl_top_prot (final (AssertVMUnused_ctor E g1 s0)) = g1).
Proof.
  intros Ht Hn Hne. split; [|split; [|split]].
  - destruct (Z.eq_dec (tl_base s) nullptr) as [Hb|Hb].
    + rewrite (AssertVMUnused_ctor_unbound g2 s Hb). exact Ht.
    + rewrite (AssertVMUnused_ctor_bound g2 s Hb).
      match goal with |- context [protect E ?x] =>
        destruct (protect_keeps_guards x) as [_ Hk] end.
      rewrite Hk. apply Z.eqb_neq in Hn. rewrite <- Ht in Hn.
      rewrite Hn. exact Ht.
  - destruct (guards s !! g2) as [g|] eqn:Hg.
    + destruct (Z.eq_dec (m_oldBase g) nullptr) as [Hb|Hb].
      * rewrite (AssertVMUnused_dtor_unbound g2 s g Hg Hb). exact Ht.
      * destruct (AssertVMUnused_dtor_bound g2 s g Hg Hb)
          as (s' & Hd & _ & Htop & _).
        rewrite Hd. cbn. rewrite Htop.
        assert ((tl_top_prot s =? g2) = false) as ->
          by (apply Z.eqb_neq; congruence).
        exact Ht.
    + unfold AssertVMUnused_dtor, deref, gets, abort, mbind, M_bind.
      rewrite Hg. exact Ht.
  - intros g Hg Hb.
    destruct (AssertVMUnused_dtor_bound g1 s g Hg Hb)
      as (s' & Hd & _ & Htop & _).
    exists s'. split; [exact Hd|]. rewrite Htop, Ht, Z.eqb_refl. reflexivity.
  - intros s0 H0 Hb. rewrite (AssertVMUnused_ctor_bound g1 s0 Hb).
    match goal with |- context [protect E ?x] =>
      destruct (protect_keeps_guards x) as [_ Hk] end.
    rewrite Hk, H0. reflexivity.
Qed.

(** C5. On a thread with no segment bound the constructor of a guard
    returns at once: the triple, the top-level reference, the bundle and
    the trace of outside calls are those of the call, and all the guard
    holds is its own three members.  Its destructor, in whatever state
    the scope ends, returns with that state, the object gone.  An empty
    scope around such a guard gives back the very state it started
    from. *)
Theorem unbound_guard_is_noop (this : Z) (s : vm) :
  tl_base s = nullptr ->
  exists s1,
    AssertVMUnused_ctor E this s = Ok tt s1 /\
    triple s1 = triple s /\
    tl_top_prot s1 = tl_top_prot s /\
    vmRegsUnsafe s1 = vmRegsUnsafe s /\
    trace s1 = trace s /\
    guards s1 = <[this := snapshot s]> (guards s) /\
    (forall s2,
        guards s2 !! this = guards s1 !! this ->
        exists s3,
          AssertVMUnused_dtor this s2 = Ok tt s3 /\
          triple s3 = triple s2 /\
          tl_top_prot s3 = tl_top_prot s2 /\
          vmRegsUnsafe s3 = vmRegsUnsafe s2 /\
          trace s3 = trace s2 /\
          guards s3 = delete this (guards s2)) /\
    (guards s !! this = None ->
     with_AssertVMUnused E this (mret tt) s = Ok tt s).
Proof.
  intros Hb. exists (constructed this s).
  pose proof (AssertVMUnused_ctor_unbound this s Hb) as Hc.
  assert (forall s2, guards s2 !! this = guards (constructed this s) !! this ->
            AssertVMUnused_dtor this s2 = Ok tt (destroyed this s2)) as Hd.
  { intros s2 Hg. cbn in Hg. rewrite lookup_insert_eq in Hg.
    apply (AssertVMUnused_dtor_unbound this s2 _ Hg). exact Hb. }
  repeat split; try assumption.
  - intros s2 Hg. exists (destroyed this s2).
    rewrite (Hd s2 Hg). repeat split.
  - intros Hfresh. unfold with_AssertVMUnused.
    rewrite (bind_Ok _ _ _ _ _ Hc).
    change ((mret tt ≫= λ _ : (), AssertVMUnused_dtor this) (constructed this s))
      with (AssertVMUnused_dtor this (constructed this s)).
    rewrite (Hd _ eq_refl). f_equal.
    unfold destroyed, constructed, set_guards. cbn.
    rewrite delete_insert_eq, (delete_id _ _ Hfresh).
    destruct s; reflexivity.
Qed.

(** C9. With a top-level guard recorded, the constructor of a disabler
    tears down the bound segment and writes the triple that guard saved;
    the top-level reference and the guard objects stay as they are.  Its
    destructor, run while the same guard is recorded, is [protect()]:
    the flag is forced to [DIRTY], the protection flag set, a fresh
    throwaway segment bound and made read-only, and the top-level
    reference still points at that guard. *)
Theorem disabler_deprotects_and_reprotects (s : vm) (g : AssertVMUnused) :
  tl_top_prot s <> nullptr ->
  guards s !! tl_top_prot s = Some g ->
  exists s1,
    AssertVMUnusedDisabler_ctor s = Ok tt s1 /\
    triple s1 = saved_triple g /\
    tl_top_prot s1 = tl_top_prot s /\
    guards s1 = guards s /\
    trace s1 = trace s ++ [rds_threadExit (tl_base s)] /\
    forall s2,
      tl_top_prot s2 = tl_top_prot s ->
      AssertVMUnusedDisabler_dtor E s2 = protect E s2 /\
      tl_top_prot (final (protect E s2)) = tl_top_prot s /\
      guards (final (protect E s2)) = guards s2 /\
      tl_regState (final (protect E s2)) = DIRTY /\
      is_protected (final (protect E s2)) = true /\
      tl_base (final (protect E s2)) = threadInit_base E (cleared s2) /\
      exists len r,
        trace (final (protect E s2)) =
          trace s2 ++ [rds_threadInit (threadInit_base E (cleared s2));
                       sys_mprotect (threadInit_base E (cleared s2)) len
                                    PROT_READ r] /\
        (r = 0 -> protect E s2 = Ok tt (final (protect E s2))).
Proof.
  intros Ht Hg. eexists. split.
  { rewrite (Disabler_ctor_active s g Ht Hg). apply deprotect_steps. }
  repeat split.
  - rewrite Disabler_dtor_active by congruence. reflexivity.
  - destruct (protect_keeps_guards s2); congruence.
  - apply protect_keeps_guards.
  - apply protect_final.
  - apply protect_final.
  - apply protect_final.
  - pose proof (protect_trace s2) as (Htr & Hok & _).
    eexists _, _. split; [exact Htr | exact Hok].
Qed.

(** C10. With no top-level guard recorded, the constructor and the
    destructor of a disabler return the state they were given: the
    triple is not written, and the trace gains no call of the segment
    module or of [mprotect].  A disabler scope is then transparent: it
    ends exactly as its body does. *)
Theorem disabler_without_guard_is_noop (s : vm) :
  tl_top_prot s = nullptr ->
  AssertVMUnusedDisabler_ctor s = Ok tt s /\
  AssertVMUnusedDisabler_dtor E s = Ok tt s /\
  with_Disabler E (mret tt) s = Ok tt s /\
  (forall body : M unit,
      keeps_guards body -> with_Disabler E body s = body s).
Proof.
  intros Ht.
  pose proof (Disabler_ctor_inactive s Ht) as Hc.
  pose proof (Disabler_dtor_inactive s Ht) as Hd.
  assert (forall body : M unit,
      keeps_guards body -> with_Disabler E body s = body s) as Hbody.
  { intros body Hk. unfold with_Disabler.
    rewrite (bind_Ok _ _ _ _ _ Hc).
    destruct (Hk s) as [_ Hts].
    destruct (body s) as [[] s'|f s'] eqn:Hb.
    - rewrite (bind_Ok _ _ _ _ _ Hb). cbn in Hts.
      apply Disabler_dtor_inactive. congruence.
    - apply bind_Fatal. exact Hb. }
  repeat split; try assumption.
  rewrite (Hbody (mret tt) (keeps_guards_ret tt)). reflexivity.
Qed.

End GuardProperties.

(** ** The statements on the concrete world

    Each statement above that has hypotheses is applied here to
    [demo_env], so that its hypotheses are seen to hold somewhere. *)

Lemma frame_local_reconstruction_example_witness :
  (sizeof_TypedValue demo_env = 8 /\
   getOuterVMFrame demo_env 0x1000 = 0x2000 /\
   Func_base (m_func (frame_at demo_env 0x2000)) = 100 /\
   m_soff (frame_at demo_env 0x1000) = 5 /\
   numArgs (frame_at demo_env 0x1000) = 2 /\
   resumed (frame_at demo_env 0x1000) = false /\
   tl_regState demo_thread = DIRTY /\
   isValidAddress demo_env 0x0FF0 = true) /\
  exists a s',
    VMRegAnchor_ctor_ar demo_env 0x1000 demo_thread = Ok a s' /\
    pc (vmRegsUnsafe s') = 7 * 0x10000 + 105 /\
    stack_top (vmRegsUnsafe s') = 0x0FF0 /\
    stack_top (vmRegsUnsafe s') = 0x1000 - 2 * 8 /\
    fp (vmRegsUnsafe s') = 0x2000 /\
    tl_regState s' = CLEAN.
Proof.
  split; [repeat split|].
  apply (frame_local_reconstruction_example demo_env demo_thread 0x2000);
    reflexivity.
Defined.

Lemma anchor_release_restores_flag_witness :
  VMRegAnchor_ctor demo_env demo_thread =
    Ok (MkVMRegAnchor DIRTY)
       (set_regState CLEAN (set_regs (MkVMRegs 1 2 3) demo_thread)) /\
  VMRegAnchor_dtor (MkVMRegAnchor DIRTY) (thread_start (MkVMRegs 4 5 6) 0x7000)
    = Ok tt (set_regState DIRTY (thread_start (MkVMRegs 4 5 6) 0x7000)).
Proof.
  split; [reflexivity|].
  apply (anchor_release_restores_flag demo_env demo_thread
           (set_regState CLEAN (set_regs (MkVMRegs 1 2 3) demo_thread))
           (thread_start (MkVMRegs 4 5 6) 0x7000) (MkVMRegAnchor DIRTY)).
  left. reflexivity.
Defined.

Lemma frame_local_requires_dirty_witness :
  tl_regState (thread_start (MkVMRegs 0 0 0) 0x7000) = CLEAN /\
  VMRegAnchor_ctor_ar demo_env 0x1000 (thread_start (MkVMRegs 0 0 0) 0x7000)
    = Fatal assert_regState_DIRTY (thread_start (MkVMRegs 0 0 0) 0x7000).
Proof.
  split; [reflexivity|].
  apply (frame_local_requires_dirty demo_env 0x1000
           (thread_start (MkVMRegs 0 0 0) 0x7000)).
  reflexivity.
Defined.

Lemma frame_local_rejects_resumed_witness :
  resumed (frame_at demo_env 0x3000) = true /\
  exists f s',
    VMRegAnchor_ctor_ar demo_env 0x3000 demo_thread = Fatal f s' /\
    (f = assert_regState_DIRTY \/ f = assert_not_resumed) /\
    vmRegsUnsafe s' = vmRegsUnsafe demo_thread.
Proof.
  split; [reflexivity|].
  apply (frame_local_rejects_resumed demo_env 0x3000 demo_thread).
  reflexivity.
Defined.

Lemma guard_construction_protects_witness :
  tl_base demo_thread <> nullptr /\
  exists b len r,
    trace (final (AssertVMUnused_ctor demo_env 0x100 demo_thread)) =
      trace demo_thread ++ [rds_threadInit b; sys_mprotect b len PROT_READ r] /\
    tl_base (final (AssertVMUnused_ctor demo_env 0x100 demo_thread)) = b /\
    tl_regState (final (AssertVMUnused_ctor demo_env 0x100 demo_thread)) = DIRTY /\
    is_protected (final (AssertVMUnused_ctor demo_env 0x100 demo_thread)) = true.
Proof.
  assert (tl_base demo_thread <> nullptr) as H by (vm_compute; lia).
  split; [exact H|].
  destruct (guard_construction_protects demo_env 0x100 demo_thread H)
    as (sc & sp & b & len & r & _ & _ & _ & _ & _ & _ & _ & _ & _ & _ & _ & _
        & Ht & Hb & Hs & Hp & _).
  exists b, len, r. repeat split; assumption.
Defined.

Lemma guard_restores_triple_witness :
  tl_base demo_thread <> nullptr /\
  (forall st a l, mprotect demo_env st a l PROT_READ = 0) /\
  top_is_live demo_thread /\
  exists s',
    with_AssertVMUnused demo_env 0x100 (nested_disablers demo_env 3) demo_thread
      = Ok tt s' /\
    triple s' = triple demo_thread.
Proof.
  assert (tl_base demo_thread <> nullptr) as H by (vm_compute; lia).
  assert (top_is_live demo_thread) as Hl by (intros Hn; exfalso; apply Hn; reflexivity).
  split; [exact H|]. split; [reflexivity|]. split; [exact Hl|].
  apply (guard_restores_triple demo_env 0x100 3 demo_thread H);
    [reflexivity | exact Hl].
Defined.

Lemma second_guard_is_not_top_level_witness :
  (tl_top_prot guarded_thread = 0x100 /\ 0x100 <> nullptr /\ 0x200 <> 0x100) /\
  tl_top_prot (final (AssertVMUnused_ctor demo_env 0x200 guarded_thread)) = 0x100.
Proof.
  assert (tl_top_prot guarded_thread = 0x100) as Ht by (vm_compute; reflexivity).
  assert (0x100 <> nullptr) as Hn by (vm_compute; lia).
  assert (0x200 <> 0x100) as Hne by lia.
  split; [split; [exact Ht | split; [exact Hn | exact Hne]]|].
  destruct (second_guard_is_not_top_level demo_env 0x100 0x200 guarded_thread
              Ht Hn Hne) as [H _].
  exact H.
Defined.

Lemma unbound_guard_is_noop_witness :
  tl_base unbound_thread = nullptr /\
  guards unbound_thread !! 0x100 = None /\
  with_AssertVMUnused demo_env 0x100 (mret tt) unbound_thread
    = Ok tt unbound_thread.
Proof.
  assert (guards unbound_thread !! 0x100 = None) as Hf
    by (vm_compute; reflexivity).
  split; [reflexivity|]. split; [exact Hf|].
  destruct (unbound_guard_is_noop demo_env 0x100 unbound_thread eq_refl)
    as (s1 & _ & _ & _ & _ & _ & _ & _ & Hscope).
  exact (Hscope Hf).
Defined.

Lemma disabler_deprotects_and_reprotects_witness :
  tl_top_prot guarded_thread <> nullptr /\
  guards guarded_thread !! tl_top_prot guarded_thread
    = Some (snapshot demo_thread) /\
  exists s1,
    AssertVMUnusedDisabler_ctor guarded_thread = Ok tt s1 /\
    triple s1 = triple demo_thread /\
    tl_top_prot s1 = 0x100.
Proof.
  assert (tl_top_prot guarded_thread <> nullptr) as Ht by (vm_compute; lia).
  assert (guards guarded_thread !! tl_top_prot guarded_thread
            = Some (snapshot demo_thread)) as Hg by (vm_compute; reflexivity).
  split; [exact Ht|]. split; [exact Hg|].
  destruct (disabler_deprotects_and_reprotects demo_env guarded_thread
              (snapshot demo_thread) Ht Hg)
    as (s1 & Hc & Htr & Htop & _).
  exists s1. repeat split; assumption.
Defined.

Lemma disabler_without_guard_is_noop_witness :
  tl_top_prot demo_thread = nullptr /\
  AssertVMUnusedDisabler_ctor demo_thread = Ok tt demo_thread /\
  AssertVMUnusedDisabler_dtor demo_env demo_thread = Ok tt demo_thread.
Proof.
  split; [reflexivity|].
  destruct (disabler_without_guard_is_noop demo_env demo_thread eq_refl)
    as (Hc & Hd & _).
  split; assumption.
Defined.

(** ** Runs on the concrete world *)

(** The guard at [0x100] around three nested disablers, from start to
    end: the triple of [demo_thread] is back, no guard is recorded. *)
Example guard_scope_run :
  exists s',
    with_AssertVMUnused demo_env 0x100 (nested_disablers demo_env 3) demo_thread
      = Ok tt s' /\
    triple s' = (0x7000, DIRTY, false) /\
    tl_top_prot s' = nullptr /\ guards s' = ∅.
Proof.
  eexists. split; [vm_compute; reflexivity|].
  split; [reflexivity|]. split; reflexivity.
Qed.

(** A second guard, at [0x200], inside the first, around two nested
    disablers: the disablers restore what the first guard saved, the
    second guard what it found itself, and the first guard the triple of
    [demo_thread]. *)
Example nested_guard_scope_run :
  exists s',
    with_AssertVMUnused demo_env 0x100
      (with_AssertVMUnused demo_env 0x200 (nested_disablers demo_env 2))
      demo_thread = Ok tt s' /\
    triple s' = triple demo_thread /\
    tl_top_prot s' = nullptr /\ guards s' = ∅.
Proof.
  eexists. split; [vm_compute; reflexivity|].
  split; [reflexivity|]. split; reflexivity.
Qed.

(** The calls that leave the translation unit during a guard scope with
    two nested disablers.  The constructor of the inner disabler runs
    [deprotect] while the thread's own segment, at [0x7000], is the bound
    one, so its [threadExit] is issued on that segment; the handle
    [0x7000] is written back all the same. *)
Example nested_disablers_trace :
  trace (final (with_AssertVMUnused demo_env 0x100
                  (nested_disablers demo_env 2) demo_thread)) =
    [rds_threadInit 0x50000; sys_mprotect 0x50000 0x800 PROT_READ 0;
     rds_threadExit 0x50000; rds_threadExit 0x7000;
     rds_threadInit 0x54000; sys_mprotect 0x54000 0x800 PROT_READ 0;
     rds_threadInit 0x56000; sys_mprotect 0x56000 0x800 PROT_READ 0;
     rds_threadExit 0x56000].
Proof. vm_compute. reflexivity. Qed.

(** When the operating system refuses [mprotect], the constructor of a
    guard on a bound thread aborts at [always_assert]: it does not
    return. *)
Example guard_construction_aborts_on_mprotect_failure :
  exists s',
    AssertVMUnused_ctor failing_env 0x100 demo_thread
      = Fatal always_assert_mprotect s' /\
    trace s' = [rds_threadInit 0x50000;
                sys_mprotect 0x50000 0x800 PROT_READ (-1)].
Proof. eexists. split; vm_compute; reflexivity. Qed.

(** The frame-local constructor on the frame at [0x1000]: two slots of
    8 bytes below [0x1000], offset 100 + 5 in unit 7, caller [0x2000]. *)
Example frame_local_run :
  VMRegAnchor_ctor_ar demo_env 0x1000 demo_thread =
    Ok (MkVMRegAnchor DIRTY)
       (set_regs (MkVMRegs (7 * 0x10000 + 105) 0x2000 0x0FF0)
                 (set_regState CLEAN demo_thread)).
Proof. reflexivity. Qed.

(** * Further properties of the guard *)

Section BlockProperties.

Variable E : Env.

(** What a returning constructor has done to the guard objects and to
    the top-level reference. *)
Lemma AssertVMUnused_ctor_Ok (this : Z) (s s1 : vm) :
  AssertVMUnused_ctor E this s = Ok tt s1 ->
  guards s1 = <[this := snapshot s]> (guards s) /\
  tl_top_prot s1 =
    (if tl_base s =? nullptr then tl_top_prot s
     else if tl_top_prot s =? nullptr then this else tl_top_prot s).
Proof.
  intros H. destruct (Z.eq_dec (tl_base s) nullptr) as [Hb|Hb].
  - rewrite (AssertVMUnused_ctor_unbound E this s Hb) in H.
    injection H as <-. rewrite Hb. split; reflexivity.
  - rewrite (AssertVMUnused_ctor_bound E this s Hb) in H.
    match type of H with protect E ?x = _ =>
      destruct (protect_keeps_guards E x) as [Hg Ht] end.
    rewrite H in Hg, Ht. cbn in Hg, Ht. rewrite Hg, Ht.
    apply Z.eqb_neq in Hb. rewrite Hb.
    destruct (tl_top_prot s =? nullptr); split; reflexivity.
Qed.

(** What a returning destructor has done. *)
Lemma AssertVMUnused_dtor_Ok (this : Z) (s s' : vm) :
  AssertVMUnused_dtor this s = Ok tt s' ->
  exists g,
    guards s !! this = Some g /\
    guards s' = delete this (guards s) /\
    vmRegsUnsafe s' = vmRegsUnsafe s /\
    (m_oldBase g = nullptr ->
     triple s' = triple s /\ tl_top_prot s' = tl_top_prot s /\
     trace s' = trace s) /\
    (m_oldBase g <> nullptr ->
     triple s' = saved_triple g /\
     tl_top_prot s' =
       (if tl_top_prot s =? this then nullptr else tl_top_prot s) /\
     trace s' = trace s ++ [rds_threadExit (tl_base s)]).
Proof.
  intros H. destruct (guards s !! this) as [g|] eqn:Hg.
  - exists g. split; [reflexivity|].
    destruct (Z.eq_dec (m_oldBase g) nullptr) as [Hb|Hb].
    + rewrite (AssertVMUnused_dtor_unbound this s g Hg Hb) in H.
      injection H as <-. repeat split; try reflexivity; intros; contradiction.
    + destruct (AssertVMUnused_dtor_bound this s g Hg Hb)
        as (s2 & Hd & Htr & Htop & Hgs & Htrace).
      rewrite Hd in H. injection H as <-.
      split; [exact Hgs|]. split.
      { revert Hd. run_guard. rewrite Hg. apply Z.eqb_neq in Hb. rewrite Hb.
        cbn. destruct (tl_top_prot s =? this); intros [= <-]; reflexivity. }
      split; [intros; contradiction|]. intros _. repeat split; assumption.
  - revert H. unfold AssertVMUnused_dtor, deref, gets, abort, mbind, M_bind.
    rewrite Hg. discriminate.
Qed.

(** A block that does not declare a guard at [g] leaves the object at
    [g] alone, when it returns. *)
Lemma run_block_keeps_object (g : Z) (b : block) :
  ~ declares g b ->
  forall s s', run_block E b s = Ok tt s' -> guards s' !! g = guards s !! g.
Proof.
  induction b as [|b1 IH1 b2 IH2|this body IH|body IH];
    cbn [declares run_block]; intros Hn s s' H.
  - injection H as <-. reflexivity.
  - apply bind_Ok_inv in H as ([] & s1 & H1 & H2).
    rewrite (IH2 ltac:(tauto) _ _ H2). apply (IH1 ltac:(tauto) _ _ H1).
  - unfold with_AssertVMUnused in H.
    apply bind_Ok_inv in H as ([] & s1 & Hc & H).
    apply bind_Ok_inv in H as ([] & s2 & Hb & Hd).
    apply AssertVMUnused_ctor_Ok in Hc as [Hg1 _].
    apply AssertVMUnused_dtor_Ok in Hd as (o & _ & Hg3 & _).
    assert (this <> g) as Hne by (intros ->; tauto).
    rewrite Hg3, lookup_delete_ne by exact Hne.
    rewrite (IH ltac:(tauto) _ _ Hb), Hg1.
    apply lookup_insert_ne. exact Hne.
  - unfold with_Disabler in H.
    apply bind_Ok_inv in H as ([] & s1 & Hc & H).
    apply bind_Ok_inv in H as ([] & s2 & Hb & Hd).
    destruct (Disabler_ctor_keeps_guards s) as [Hg1 _].
    destruct (Disabler_dtor_keeps_guards E s2) as [Hg3 _].
    rewrite Hc in Hg1. rewrite Hd in Hg3. cbn in Hg1, Hg3.
    rewrite Hg3, (IH Hn _ _ Hb), Hg1. reflexivity.
Qed.

(** X1. A guard on a thread with a segment bound, around any block
    of sequenced and nested guards and disablers that declares no
    guard at the address of this one: when the scope is left normally,
    the triple is the one found before the guard was constructed. *)
Theorem guard_restores_triple_around_any_block
    (this : Z) (b : block) (s s' : vm) :
  tl_base s <> nullptr ->
  ~ declares this b ->
  with_AssertVMUnused E this (run_block E b) s = Ok tt s' ->
  triple s' = triple s.
Proof.
  intros Hb Hn H. unfold with_AssertVMUnused in H.
  apply bind_Ok_inv in H as ([] & s1 & Hc & H).
  apply bind_Ok_inv in H as ([] & s2 & Hbody & Hd).
  apply AssertVMUnused_ctor_Ok in Hc as [Hg1 _].
  apply AssertVMUnused_dtor_Ok in Hd as (o & Ho & _ & _ & _ & Hbound).
  rewrite (run_block_keeps_object this b Hn _ _ Hbody), Hg1,
    lookup_insert_eq in Ho.
  injection Ho as <-. apply Hbound. exact Hb.
Qed.

(** X2. Scopes are balanced.  A well-scoped block, run in a state whose
    guard objects are among the guards it is declared under and whose
    top-level reference is null or one of them, leaves on return the same
    guard objects and the same top-level reference: a guard that
    recorded itself has cleared the reference, no other guard has, and
    every object has ended with its scope. *)
Theorem scopes_leave_guard_state_as_found (b : block) :
  forall (live : list Z) (s s' : vm),
    well_scoped live b ->
    guards_among live s ->
    run_block E b s = Ok tt s' ->
    guards s' = guards s /\ tl_top_prot s' = tl_top_prot s.
Proof.
  induction b as [|b1 IH1 b2 IH2|this body IH|body IH];
    cbn [well_scoped run_block]; intros live s s' Hws Hamong H.
  - injection H as <-. split; reflexivity.
  - apply bind_Ok_inv in H as ([] & s1 & H1 & H2).
    destruct Hws as [Hws1 Hws2].
    destruct (IH1 live s s1 Hws1 Hamong H1) as [Hg1 Ht1].
    assert (guards_among live s1) as Hamong1.
    { unfold guards_among. rewrite Hg1, Ht1. exact Hamong. }
    destruct (IH2 live s1 s' Hws2 Hamong1 H2) as [Hg2 Ht2].
    split; congruence.
  - destruct Hws as (Hnn & Hfresh & Hws). destruct Hamong as [Hdom Htop].
    unfold with_AssertVMUnused in H.
    apply bind_Ok_inv in H as ([] & s1 & Hc & H).
    apply bind_Ok_inv in H as ([] & s2 & Hb & Hd).
    apply AssertVMUnused_ctor_Ok in Hc as [Hg1 Ht1].
    assert (guards_among (this :: live) s1) as Hamong1.
    { split.
      - intros g Hg. apply not_elem_of_cons in Hg as [Hne Hg].
        rewrite Hg1, lookup_insert_ne by congruence. apply Hdom, Hg.
      - rewrite Ht1. destruct (tl_base s =? nullptr).
        + destruct Htop as [Htop|Htop]; [left; exact Htop|].
          right. apply elem_of_cons. right. exact Htop.
        + destruct (tl_top_prot s =? nullptr) eqn:Hz.
          * right. apply elem_of_cons. left. reflexivity.
          * destruct Htop as [Htop|Htop].
            { apply Z.eqb_neq in Hz. contradiction. }
            right. apply elem_of_cons. right. exact Htop. }
    destruct (IH (this :: live) s1 s2 Hws Hamong1 Hb) as [Hg2 Ht2].
    apply AssertVMUnused_dtor_Ok in Hd as (o & Ho & Hg3 & _ & Hunb & Hbnd).
    rewrite Hg2, Hg1, lookup_insert_eq in Ho. injection Ho as <-.
    split.
    + rewrite Hg3, Hg2, Hg1, delete_insert_eq.
      apply delete_id, Hdom, Hfresh.
    + cbn [snapshot m_oldBase] in Hunb, Hbnd.
      destruct (Z.eq_dec (tl_base s) nullptr) as [Hz|Hz].
      * destruct (Hunb Hz) as (_ & -> & _). rewrite Ht2, Ht1, Hz.
        reflexivity.
      * destruct (Hbnd Hz) as (_ & -> & _). rewrite Ht2, Ht1.
        apply Z.eqb_neq in Hz. rewrite Hz.
        destruct (tl_top_prot s =? nullptr) eqn:Hn.
        { rewrite Z.eqb_refl. apply Z.eqb_eq in Hn. congruence. }
        destruct Htop as [Htop|Htop].
        { apply Z.eqb_neq in Hn. contradiction. }
        assert ((tl_top_prot s =? this) = false) as ->; [|reflexivity].
        apply Z.eqb_neq. intros Heq. apply Hfresh. rewrite <- Heq.
        exact Htop.
  - unfold with_Disabler in H.
    apply bind_Ok_inv in H as ([] & s1 & Hc & H).
    apply bind_Ok_inv in H as ([] & s2 & Hb & Hd).
    destruct (Disabler_ctor_keeps_guards s) as [Hg1 Ht1].
    destruct (Disabler_dtor_keeps_guards E s2) as [Hg3 Ht3].
    rewrite Hc in Hg1, Ht1. rewrite Hd in Hg3, Ht3.
    cbn in Hg1, Ht1, Hg3, Ht3.
    assert (guards_among live s1) as Hamong1.
    { unfold guards_among. rewrite Hg1, Ht1. exact Hamong. }
    destruct (IH live s1 s2 Hws Hamong1 Hb) as [Hg2 Ht2].
    split; congruence.
Qed.

(** X3. Without a segment there is nothing to guard.  On a thread with
    no segment bound and no guard recorded, every well-scoped block of
    guards and disablers returns, and returns the very state it was
    started in: no flag, no handle, no reference is written, no call
    leaves the translation unit, and no guard object outlives its
    scope. *)
Theorem guards_are_inert_without_segment (b : block) :
  forall (live : list Z) (s : vm),
    well_scoped live b ->
    (forall g, g ∉ live -> guards s !! g = None) ->
    tl_base s = nullptr ->
    tl_top_prot s = nullptr ->
    run_block E b s = Ok tt s.
Proof.
  induction b as [|b1 IH1 b2 IH2|this body IH|body IH];
    cbn [well_scoped run_block]; intros live s Hws Hdom Hb Ht.
  - reflexivity.
  - destruct Hws as [Hws1 Hws2].
    rewrite (bind_Ok _ _ _ _ _ (IH1 live s Hws1 Hdom Hb Ht)).
    apply (IH2 live s Hws2 Hdom Hb Ht).
  - destruct Hws as (Hnn & Hfresh & Hws).
    unfold with_AssertVMUnused.
    rewrite (bind_Ok _ _ _ _ _ (AssertVMUnused_ctor_unbound E this s Hb)).
    assert (run_block E body (constructed this s) = Ok tt (constructed this s))
      as Hbody.
    { apply (IH (this :: live)); [exact Hws| |exact Hb|exact Ht].
      intros g Hg. apply not_elem_of_cons in Hg as [Hne Hg]. cbn.
      rewrite lookup_insert_ne by congruence. apply Hdom, Hg. }
    rewrite (bind_Ok _ _ _ _ _ Hbody).
    rewrite (AssertVMUnused_dtor_unbound this (constructed this s)
               (snapshot s)); [|apply lookup_insert_eq|exact Hb].
    f_equal. unfold destroyed, constructed, set_guards. cbn.
    rewrite delete_insert_eq, (delete_id _ _ (Hdom this Hfresh)).
    destruct s; reflexivity.
  - unfold with_Disabler.
    rewrite (bind_Ok _ _ _ _ _ (Disabler_ctor_inactive s Ht)).
    rewrite (bind_Ok _ _ _ _ _ (IH live s Hws Hdom Hb Ht)).
    apply Disabler_dtor_inactive, Ht.
Qed.

(** X4. A disabler restores what the outermost guard saved.  When a
    guard [g1] has become the top-level guard of a thread with a segment
    bound and a second guard [g2] has been constructed inside it, the
    constructor of a disabler writes the triple found before [g1], not
    the one [g2] found, and [g1] stays the top-level guard. *)
Theorem disabler_restores_outermost_snapshot
    (g1 g2 : Z) (s s1 s2 s3 : vm) :
  tl_base s <> nullptr -> tl_top_prot s = nullptr ->
  g1 <> nullptr -> g2 <> g1 ->
  AssertVMUnused_ctor E g1 s = Ok tt s1 ->
  AssertVMUnused_ctor E g2 s1 = Ok tt s2 ->
  AssertVMUnusedDisabler_ctor s2 = Ok tt s3 ->
  triple s3 = triple s /\ tl_top_prot s3 = g1 /\
  triple s2 = (tl_base s2, DIRTY, true).
Proof.
  intros Hb Ht Hn Hne H1 H2 H3.
  pose proof H1 as H1'. pose proof H2 as H2'.
  apply AssertVMUnused_ctor_Ok in H1 as [Hg1 Ht1].
  apply AssertVMUnused_ctor_Ok in H2 as [Hg2 Ht2].
  apply Z.eqb_neq in Hb. rewrite Hb, Ht in Ht1. cbn in Ht1.
  assert (tl_top_prot s2 = g1) as Htop2.
  { rewrite Ht2, Ht1. apply Z.eqb_neq in Hn. rewrite Hn.
    destruct (tl_base s1 =? nullptr); reflexivity. }
  assert (guards s2 !! tl_top_prot s2 = Some (snapshot s)) as Hobj.
  { rewrite Htop2, Hg2, lookup_insert_ne by exact Hne.
    rewrite Hg1. apply lookup_insert_eq. }
  rewrite (Disabler_ctor_active s2 _ ltac:(congruence) Hobj),
    deprotect_steps in H3.
  injection H3 as <-. split; [reflexivity|]. split; [exact Htop2|].
  clear Hobj Htop2 Hg2 Ht2.
  destruct (Z.eq_dec (tl_base s1) nullptr) as [Hz|Hz].
  - rewrite (AssertVMUnused_ctor_unbound E g2 s1 Hz) in H2'.
    injection H2' as <-.
    rewrite (AssertVMUnused_ctor_bound E g1 s) in H1'
      by (apply Z.eqb_neq; exact Hb).
    match type of H1' with protect E ?x = _ =>
      pose proof (protect_final E x) as (Hst & Hp & _) end.
    rewrite H1' in Hst, Hp. cbn in Hst, Hp.
    unfold triple. cbn. rewrite Hst, Hp. reflexivity.
  - rewrite (AssertVMUnused_ctor_bound E g2 s1 Hz) in H2'.
    match type of H2' with protect E ?x = _ =>
      pose proof (protect_final E x) as (Hst & Hp & _) end.
    rewrite H2' in Hst, Hp. cbn in Hst, Hp.
    unfold triple. rewrite Hst, Hp. reflexivity.
Qed.

(** What a returning [protect()] has done. *)
Lemma protect_Ok (s s' : vm) :
  protect E s = Ok tt s' ->
  exists b len,
    trace s' = trace s ++ [rds_threadInit b; sys_mprotect b len PROT_READ 0] /\
    triple s' = (b, DIRTY, true) /\
    guards s' = guards s /\ tl_top_prot s' = tl_top_prot s.
Proof.
  intros H.
  pose proof (protect_trace E s) as (Htr & _ & Hko).
  pose proof (protect_final E s) as (Hst & Hp & Hb & Ht & Hg & _).
  cbv zeta in Htr, Hko. rewrite H in Htr, Hko, Hst, Hp, Hb, Ht, Hg.
  cbn [final] in *.
  match type of Htr with context [sys_mprotect _ ?l _ ?r] =>
    exists (threadInit_base E (cleared s)), l;
    destruct (Z.eq_dec r 0) as [Hr|Hr] end.
  - rewrite Hr in Htr. unfold triple. rewrite Hst, Hp, Hb.
    repeat split; assumption.
  - specialize (Hko Hr). discriminate.
Qed.

Lemma extends_trace_bind {A B} (c : M A) (k : A -> M B) :
  extends_trace c -> (forall a, extends_trace (k a)) -> extends_trace (c ≫= k).
Proof.
  intros Hc Hk s. destruct (Hc s) as [t Ht]. unfold mbind, M_bind.
  destruct (c s) as [a s1|f s1]; cbn in *; [|eauto].
  destruct (Hk a s1) as [t' Ht']. exists (t ++ t').
  rewrite Ht', Ht, app_assoc. reflexivity.
Qed.

Lemma extends_trace_ret {A} (a : A) : extends_trace (mret a : M A).
Proof. intros s. exists []. cbn. rewrite app_nil_r. reflexivity. Qed.

Lemma protect_extends_trace : extends_trace (protect E).
Proof.
  intros s. pose proof (protect_trace E s) as (Htr & _). cbv zeta in Htr.
  eauto.
Qed.

Lemma deprotect_extends_trace base state prot :
  extends_trace (deprotect base state prot).
Proof. intros s. rewrite deprotect_steps. cbn. eauto. Qed.

Lemma Disabler_ctor_extends_trace : extends_trace AssertVMUnusedDisabler_ctor.
Proof.
  intros s. unfold AssertVMUnusedDisabler_ctor, deref, gets, abort, mbind, M_bind.
  destruct (tl_top_prot s =? nullptr).
  - apply extends_trace_ret.
  - destruct (guards s !! tl_top_prot s).
    + apply deprotect_extends_trace.
    + exists []. cbn. rewrite app_nil_r. reflexivity.
Qed.

Lemma Disabler_dtor_extends_trace : extends_trace (AssertVMUnusedDisabler_dtor E).
Proof.
  intros s. unfold AssertVMUnusedDisabler_dtor, gets, mbind, M_bind.
  destruct (tl_top_prot s =? nullptr).
  - apply extends_trace_ret.
  - apply protect_extends_trace.
Qed.

Lemma nested_disablers_extends_trace (n : nat) :
  extends_trace (nested_disablers E n).
Proof.
  induction n as [|n IH]; cbn [nested_disablers].
  - apply extends_trace_ret.
  - unfold with_Disabler.
    apply extends_trace_bind; [apply Disabler_ctor_extends_trace|intros _].
    apply extends_trace_bind; [exact IH|intros _].
    apply Disabler_dtor_extends_trace.
Qed.

Lemma AssertVMUnused_dtor_extends_trace (this : Z) :
  extends_trace (AssertVMUnused_dtor this).
Proof.
  intros s. destruct (guards s !! this) as [g|] eqn:Hg.
  - destruct (Z.eq_dec (m_oldBase g) nullptr) as [Hb|Hb].
    + rewrite (AssertVMUnused_dtor_unbound this s g Hg Hb).
      exists []. cbn. rewrite app_nil_r. reflexivity.
    + destruct (AssertVMUnused_dtor_bound this s g Hg Hb)
        as (s' & Hd & _ & _ & _ & Htr).
      rewrite Hd. cbn. eauto.
  - unfold AssertVMUnused_dtor, deref, gets, abort, mbind, M_bind.
    rewrite Hg. exists []. cbn. rewrite app_nil_r. reflexivity.
Qed.

Lemma extends_trace_Ok {A} (c : M A) (s s' : vm) (a : A) :
  extends_trace c -> c s = Ok a s' -> exists t, trace s' = trace s ++ t.
Proof. intros Hc H. destruct (Hc s) as [t Ht]. rewrite H in Ht. eauto. Qed.

(** The guard that becomes the top-level guard of a bound thread: the
    state its constructor returns. *)
Lemma top_guard_constructed (this : Z) (s s1 : vm) :
  tl_base s <> nullptr -> tl_top_prot s = nullptr ->
  AssertVMUnused_ctor E this s = Ok tt s1 ->
  exists b len,
    trace s1 = trace s ++ [rds_threadInit b; sys_mprotect b len PROT_READ 0] /\
    triple s1 = (b, DIRTY, true) /\
    tl_top_prot s1 = this /\
    guards s1 !! this = Some (snapshot s).
Proof.
  intros Hb Ht H. rewrite (AssertVMUnused_ctor_bound E this s Hb), Ht in H.
  cbn in H. apply protect_Ok in H as (b & len & Htr & Htri & Hg & Htop).
  exists b, len. rewrite Hg, Htop. cbn.
  repeat split; try assumption. apply lookup_insert_eq.
Qed.

(** X5. Under a top-level guard with at most one disabler, the segments
    are paired: every segment [threadInit] has mapped is the segment
    the next [threadExit] tears down, and nothing else is torn down.
    With the guard alone the calls are init, mprotect, exit; with one
    disabler inside they are init, mprotect, exit, init, mprotect,
    exit. *)
Theorem guard_scope_segment_calls_are_paired (this : Z) (s : vm) :
  tl_base s <> nullptr -> tl_top_prot s = nullptr -> this <> nullptr ->
  (forall s',
      with_AssertVMUnused E this (nested_disablers E 0) s = Ok tt s' ->
      exists b1 l1,
        trace s' = trace s ++
          [rds_threadInit b1; sys_mprotect b1 l1 PROT_READ 0;
           rds_threadExit b1]) /\
  (forall s',
      with_AssertVMUnused E this (nested_disablers E 1) s = Ok tt s' ->
      exists b1 l1 b2 l2,
        trace s' = trace s ++
          [rds_threadInit b1; sys_mprotect b1 l1 PROT_READ 0;
           rds_threadExit b1;
           rds_threadInit b2; sys_mprotect b2 l2 PROT_READ 0;
           rds_threadExit b2]).
Proof.
  intros Hb Ht Hn. split; intros s' H; unfold with_AssertVMUnused in H;
    apply bind_Ok_inv in H as ([] & s1 & Hc & H);
    apply bind_Ok_inv in H as ([] & s2 & Hbody & Hd);
    destruct (top_guard_constructed this s s1 Hb Ht Hc)
      as (b1 & l1 & Htr1 & Htri1 & Htop1 & Hobj1).
  - injection Hbody as <-.
    destruct (AssertVMUnused_dtor_bound this s1 _ Hobj1 Hb)
      as (s3 & Hd' & _ & _ & _ & Htr3).
    rewrite Hd' in Hd. injection Hd as <-.
    exists b1, l1. rewrite Htr3, Htr1, <- app_assoc.
    injection Htri1 as -> _ _. reflexivity.
  - cbn [nested_disablers] in Hbody. unfold with_Disabler in Hbody.
    apply bind_Ok_inv in Hbody as ([] & s3 & Hdc & Hbody).
    apply bind_Ok_inv in Hbody as ([] & s4 & Hret & Hdd).
    injection Hret as <-.
    rewrite (Disabler_ctor_active s1 (snapshot s)), deprotect_steps in Hdc;
      [|congruence|rewrite Htop1; exact Hobj1].
    injection Hdc as <-.
    rewrite Disabler_dtor_active in Hdd by (cbn; congruence).
    apply protect_Ok in Hdd as (b2 & l2 & Htr2 & Htri2 & Hg2 & _).
    destruct (AssertVMUnused_dtor_bound this s2 (snapshot s))
      as (s5 & Hd' & _ & _ & _ & Htr5); [rewrite Hg2; exact Hobj1|exact Hb|].
    rewrite Hd' in Hd. injection Hd as <-.
    exists b1, l1, b2, l2. rewrite Htr5, Htr2. cbn. rewrite Htr1.
    injection Htri1 as -> _ _. injection Htri2 as -> _ _.
    rewrite <- !app_assoc. reflexivity.
Qed.

(** X6. With two or more disablers nested under a top-level guard the
    pairing is lost: the constructor of the second disabler runs
    [deprotect], and with it [threadExit], while the handle the guard
    saved is the bound one.  The trace of a scope that is left normally
    starts with init and exit of the first throwaway segment and then
    has an exit of the segment the thread had before the guard. *)
Theorem second_nested_disabler_exits_saved_segment
    (this : Z) (n : nat) (s s' : vm) :
  tl_base s <> nullptr -> tl_top_prot s = nullptr -> this <> nullptr ->
  with_AssertVMUnused E this (nested_disablers E (S (S n))) s = Ok tt s' ->
  exists b1 l1 rest,
    trace s' = trace s ++
      [rds_threadInit b1; sys_mprotect b1 l1 PROT_READ 0;
       rds_threadExit b1; rds_threadExit (tl_base s)] ++ rest.
Proof.
  intros Hb Ht Hn H. unfold with_AssertVMUnused in H.
  apply bind_Ok_inv in H as ([] & s1 & Hc & H).
  apply bind_Ok_inv in H as ([] & s2 & Hbody & Hd).
  destruct (top_guard_constructed this s s1 Hb Ht Hc)
    as (b1 & l1 & Htr1 & Htri1 & Htop1 & Hobj1).
  cbn [nested_disablers] in Hbody. unfold with_Disabler in Hbody.
  apply bind_Ok_inv in Hbody as ([] & s3 & Hdc1 & Hbody).
  apply bind_Ok_inv in Hbody as ([] & s6 & Hinner & Hdd1).
  apply bind_Ok_inv in Hinner as ([] & s4 & Hdc2 & Hinner).
  apply bind_Ok_inv in Hinner as ([] & s5 & Hnest & Hdd2).
  rewrite (Disabler_ctor_active s1 (snapshot s)), deprotect_steps in Hdc1;
    [|congruence|rewrite Htop1; exact Hobj1].
  injection Hdc1 as <-.
  rewrite (Disabler_ctor_active _ (snapshot s)), deprotect_steps in Hdc2;
    [|cbn; congruence|cbn; rewrite Htop1; exact Hobj1].
  injection Hdc2 as <-.
  destruct (extends_trace_Ok _ _ _ _ (nested_disablers_extends_trace n) Hnest)
    as [t1 Ht1].
  destruct (extends_trace_Ok _ _ _ _ Disabler_dtor_extends_trace Hdd2)
    as [t2 Ht2].
  destruct (extends_trace_Ok _ _ _ _ Disabler_dtor_extends_trace Hdd1)
    as [t3 Ht3].
  destruct (extends_trace_Ok _ _ _ _ (AssertVMUnused_dtor_extends_trace this) Hd)
    as [t4 Ht4].
  exists b1, l1, (t1 ++ t2 ++ t3 ++ t4).
  rewrite Ht4, Ht3, Ht2, Ht1. cbn. rewrite Htr1.
  injection Htri1 as -> _ _.
  rewrite <- !app_assoc. reflexivity.
Qed.

End BlockProperties.

(** * Further properties of the frame-local anchor *)

Section FrameLocalProperties.

Variable E : Env.


(** X8. When the flag is [DIRTY] and the frame is not resumed but the
    computed stack top is not a valid stack address, the constructor
    aborts at [assert(vmStack().isValidAddress(...))] half way: the flag
    is already [CLEAN] and the stack top of the bundle already holds the
    rejected address, while the program counter and the frame pointer
    are still those of the call. *)
Theorem frame_local_invalid_stack_top (ar : Z) (s : vm) :
  tl_regState s = DIRTY ->
  resumed (frame_at E ar) = false ->
  isValidAddress E (ar - numArgs (frame_at E ar) * sizeof_TypedValue E) = false ->
  VMRegAnchor_ctor_ar E ar s =
    Fatal assert_valid_stack_address
      (set_regs (set_stack_top (ar - numArgs (frame_at E ar) * sizeof_TypedValue E) (vmRegsUnsafe s))
                (set_regState CLEAN s)) /\
  tl_regState (final (VMRegAnchor_ctor_ar E ar s)) = CLEAN /\
  stack_top (vmRegsUnsafe (final (VMRegAnchor_ctor_ar E ar s))) =
    ar - numArgs (frame_at E ar) * sizeof_TypedValue E /\
  pc (vmRegsUnsafe (final (VMRegAnchor_ctor_ar E ar s))) = pc (vmRegsUnsafe s) /\
  fp (vmRegsUnsafe (final (VMRegAnchor_ctor_ar E ar s))) = fp (vmRegsUnsafe s).
Proof.
  intros Hd Hr Hv.
  assert (VMRegAnchor_ctor_ar E ar s =
    Fatal assert_valid_stack_address
      (set_regs (set_stack_top (ar - numArgs (frame_at E ar) * sizeof_TypedValue E) (vmRegsUnsafe s))
                (set_regState CLEAN s))) as H.
  { run. rewrite Hd. cbn. rewrite Hr. cbn. rewrite Hv. reflexivity. }
  rewrite H. repeat split.
Qed.

End FrameLocalProperties.

(** ** The further statements on the concrete world *)

Lemma guard_restores_triple_around_any_block_witness :
  tl_base demo_thread <> nullptr /\
  ~ declares 0x100
      (Seq (UnderGuard 0x200 (UnderDisabler Skip)) (UnderDisabler Skip)) /\
  with_AssertVMUnused demo_env 0x100
    (run_block demo_env
       (Seq (UnderGuard 0x200 (UnderDisabler Skip)) (UnderDisabler Skip)))
    demo_thread
  = Ok tt (final (with_AssertVMUnused demo_env 0x100
    (run_block demo_env
       (Seq (UnderGuard 0x200 (UnderDisabler Skip)) (UnderDisabler Skip)))
    demo_thread)) /\
  triple (final (with_AssertVMUnused demo_env 0x100
    (run_block demo_env
       (Seq (UnderGuard 0x200 (UnderDisabler Skip)) (UnderDisabler Skip)))
    demo_thread)) = triple demo_thread.
Proof.
  assert (tl_base demo_thread <> nullptr) as Hb by (vm_compute; lia).
  assert (~ declares 0x100
      (Seq (UnderGuard 0x200 (UnderDisabler Skip)) (UnderDisabler Skip)))
    as Hn by (cbn; lia).
  assert (with_AssertVMUnused demo_env 0x100
    (run_block demo_env
       (Seq (UnderGuard 0x200 (UnderDisabler Skip)) (UnderDisabler Skip)))
    demo_thread
  = Ok tt (final (with_AssertVMUnused demo_env 0x100
    (run_block demo_env
       (Seq (UnderGuard 0x200 (UnderDisabler Skip)) (UnderDisabler Skip)))
    demo_thread))) as Hrun by (vm_compute; reflexivity).
  split; [exact Hb|]. split; [exact Hn|]. split; [exact Hrun|].
  exact (guard_restores_triple_around_any_block demo_env 0x100 _ _ _
           Hb Hn Hrun).
Defined.

Lemma scopes_leave_guard_state_as_found_witness :
  well_scoped []
    (UnderGuard 0x100 (Seq (UnderDisabler Skip) (UnderGuard 0x200 Skip))) /\
  guards_among [] demo_thread /\
  run_block demo_env
    (UnderGuard 0x100 (Seq (UnderDisabler Skip) (UnderGuard 0x200 Skip)))
    demo_thread
  = Ok tt (final (run_block demo_env
    (UnderGuard 0x100 (Seq (UnderDisabler Skip) (UnderGuard 0x200 Skip)))
    demo_thread)) /\
  guards (final (run_block demo_env
    (UnderGuard 0x100 (Seq (UnderDisabler Skip) (UnderGuard 0x200 Skip)))
    demo_thread)) = guards demo_thread /\
  tl_top_prot (final (run_block demo_env
    (UnderGuard 0x100 (Seq (UnderDisabler Skip) (UnderGuard 0x200 Skip)))
    demo_thread)) = tl_top_prot demo_thread.
Proof.
  assert (well_scoped []
    (UnderGuard 0x100 (Seq (UnderDisabler Skip) (UnderGuard 0x200 Skip))))
    as Hws.
  { cbn. split; [vm_compute; lia|]. split; [apply not_elem_of_nil|].
    split; [exact I|]. split; [vm_compute; lia|].
    split; [|exact I]. apply not_elem_of_cons. split; [lia|].
    apply not_elem_of_nil. }
  assert (guards_among [] demo_thread) as Ham.
  { split; [intros g _; apply lookup_empty | left; reflexivity]. }
  assert (run_block demo_env
    (UnderGuard 0x100 (Seq (UnderDisabler Skip) (UnderGuard 0x200 Skip)))
    demo_thread
  = Ok tt (final (run_block demo_env
    (UnderGuard 0x100 (Seq (UnderDisabler Skip) (UnderGuard 0x200 Skip)))
    demo_thread))) as Hrun by (vm_compute; reflexivity).
  split; [exact Hws|]. split; [exact Ham|]. split; [exact Hrun|].
  exact (scopes_leave_guard_state_as_found demo_env _ [] _ _ Hws Ham Hrun).
Defined.

Lemma guards_are_inert_without_segment_witness :
  well_scoped []
    (UnderGuard 0x100 (Seq (UnderDisabler Skip) (UnderGuard 0x200 Skip))) /\
  (forall g, g ∉ [] -> guards unbound_thread !! g = None) /\
  tl_base unbound_thread = nullptr /\
  tl_top_prot unbound_thread = nullptr /\
  run_block demo_env
    (UnderGuard 0x100 (Seq (UnderDisabler Skip) (UnderGuard 0x200 Skip)))
    unbound_thread
  = Ok tt unbound_thread.
Proof.
  assert (well_scoped []
    (UnderGuard 0x100 (Seq (UnderDisabler Skip) (UnderGuard 0x200 Skip))))
    as Hws.
  { cbn. split; [vm_compute; lia|]. split; [apply not_elem_of_nil|].
    split; [exact I|]. split; [vm_compute; lia|].
    split; [|exact I]. apply not_elem_of_cons. split; [lia|].
    apply not_elem_of_nil. }
  assert (forall g : Z, g ∉ [] -> guards unbound_thread !! g = None) as Hdom
    by (intros g _; apply lookup_empty).
  split; [exact Hws|]. split; [exact Hdom|].
  split; [reflexivity|]. split; [reflexivity|].
  exact (guards_are_inert_without_segment demo_env _ [] unbound_thread
           Hws Hdom eq_refl eq_refl).
Defined.

Lemma disabler_restores_outermost_snapshot_witness :
  (tl_base demo_thread <> nullptr /\ tl_top_prot demo_thread = nullptr /\
   0x100 <> nullptr /\ 0x200 <> 0x100 /\
   AssertVMUnused_ctor demo_env 0x100 demo_thread = Ok tt guarded_thread /\
   AssertVMUnused_ctor demo_env 0x200 guarded_thread
     = Ok tt (final (AssertVMUnused_ctor demo_env 0x200 guarded_thread)) /\
   AssertVMUnusedDisabler_ctor
       (final (AssertVMUnused_ctor demo_env 0x200 guarded_thread))
     = Ok tt (final (AssertVMUnusedDisabler_ctor
         (final (AssertVMUnused_ctor demo_env 0x200 guarded_thread))))) /\
  triple (final (AssertVMUnusedDisabler_ctor
            (final (AssertVMUnused_ctor demo_env 0x200 guarded_thread))))
    = triple demo_thread.
Proof.
  assert (tl_base demo_thread <> nullptr) as Hb by (vm_compute; lia).
  assert (0x100 <> nullptr) as Hn by (vm_compute; lia).
  assert (0x200 <> 0x100) as Hne by lia.
  assert (AssertVMUnused_ctor demo_env 0x100 demo_thread = Ok tt guarded_thread)
    as H1 by (vm_compute; reflexivity).
  assert (AssertVMUnused_ctor demo_env 0x200 guarded_thread
     = Ok tt (final (AssertVMUnused_ctor demo_env 0x200 guarded_thread)))
    as H2 by (vm_compute; reflexivity).
  assert (AssertVMUnusedDisabler_ctor
       (final (AssertVMUnused_ctor demo_env 0x200 guarded_thread))
     = Ok tt (final (AssertVMUnusedDisabler_ctor
         (final (AssertVMUnused_ctor demo_env 0x200 guarded_thread)))))
    as H3 by (vm_compute; reflexivity).
  split.
  { split; [exact Hb|]. split; [reflexivity|]. split; [exact Hn|].
    split; [exact Hne|]. split; [exact H1|]. split; [exact H2 | exact H3]. }
  destruct (disabler_restores_outermost_snapshot demo_env 0x100 0x200
              demo_thread _ _ _ Hb eq_refl Hn Hne H1 H2 H3) as [H _].
  exact H.
Defined.

Lemma guard_scope_segment_calls_are_paired_witness :
  (tl_base demo_thread <> nullptr /\ tl_top_prot demo_thread = nullptr /\
   0x100 <> nullptr) /\
  exists b1 l1 b2 l2,
    trace (final (with_AssertVMUnused demo_env 0x100
                    (nested_disablers demo_env 1) demo_thread)) =
      trace demo_thread ++
        [rds_threadInit b1; sys_mprotect b1 l1 PROT_READ 0;
         rds_threadExit b1;
         rds_threadInit b2; sys_mprotect b2 l2 PROT_READ 0;
         rds_threadExit b2].
Proof.
  assert (tl_base demo_thread <> nullptr) as Hb by (vm_compute; lia).
  assert (0x100 <> nullptr) as Hn by (vm_compute; lia).
  split; [split; [exact Hb|split; [reflexivity|exact Hn]]|].
  destruct (guard_scope_segment_calls_are_paired demo_env 0x100 demo_thread
              Hb eq_refl Hn) as [_ H].
  apply H. vm_compute. reflexivity.
Defined.

Lemma second_nested_disabler_exits_saved_segment_witness :
  (tl_base demo_thread <> nullptr /\ tl_top_prot demo_thread = nullptr /\
   0x100 <> nullptr) /\
  exists b1 l1 rest,
    trace (final (with_AssertVMUnused demo_env 0x100
                    (nested_disablers demo_env 2) demo_thread)) =
      trace demo_thread ++
        [rds_threadInit b1; sys_mprotect b1 l1 PROT_READ 0;
         rds_threadExit b1; rds_threadExit (tl_base demo_thread)] ++ rest.
Proof.
  assert (tl_base demo_thread <> nullptr) as Hb by (vm_compute; lia).
  assert (0x100 <> nullptr) as Hn by (vm_compute; lia).
  split; [split; [exact Hb|split; [reflexivity|exact Hn]]|].
  apply (second_nested_disabler_exits_saved_segment demo_env 0x100 0
           demo_thread _ Hb eq_refl Hn).
  vm_compute. reflexivity.
Defined.

Lemma frame_local_invalid_stack_top_witness :
  (tl_regState demo_thread = DIRTY /\
   resumed (frame_at demo_env 0x20000) = false /\
   isValidAddress demo_env
     (0x20000 - numArgs (frame_at demo_env 0x20000) * sizeof_TypedValue demo_env)
     = false) /\
  VMRegAnchor_ctor_ar demo_env 0x20000 demo_thread =
    Fatal assert_valid_stack_address
      (set_regs (MkVMRegs 0 0 0x20000) (set_regState CLEAN demo_thread)).
Proof.
  split; [repeat split|].
  destruct (frame_local_invalid_stack_top demo_env 0x20000 demo_thread
              eq_refl eq_refl eq_refl) as [H _].
  exact H.
Defined.

(** * Properties of the JIT timers *)

Lemma wrap64_id (z : Z) : - 2 ^ 63 <= z < 2 ^ 63 -> wrap64 z = z.
Proof.
  intros H. unfold wrap64. rewrite Z.mod_small; lia.
Qed.

Section JitTimerProperties.

Variable s_names : list string.

(** X9. With the timer option on, a timer is counted once.  Stopping a
    timer adds the elapsed time to the total of the counter of its name,
    adds one to its count and raises its maximum to the elapsed time if
    that is larger; no other counter changes; a timer with a log entry
    also reports the elapsed time, divided by 1000 towards zero, under
    the key of its name followed by [_micros].  The destructor of a timer
    that was not stopped does exactly the same; the destructor of a
    stopped timer does nothing; and stopping a timer a second time fails
    the assertion of [stop()]. *)
Theorem timer_is_counted_once
    (clock0 clock1 clock2 : Z) (name : nat) (entry : Z)
    (st : timers) (c : Counter) (str : string) :
  s_counters st !! name = Some c ->
  s_names !! name = Some str ->
  exists t' st',
    Timer_stop true s_names clock1 (Timer_ctor true clock0 name entry) st =
      Done (wrap64 (clock1 - clock0), t', st') /\
    s_counters st' =
      <[name := MkCounter
                  (wrap64 (Counter_total c + wrap64 (clock1 - clock0)))
                  (wrap64 (Counter_count c + 1))
                  (Z.max (Counter_max c) (wrap64 (clock1 - clock0)))]>
        (s_counters st) /\
    (forall other, other <> name ->
       s_counters st' !! other = s_counters st !! other) /\
    setInt_calls st' =
      (if entry =? nullptr then setInt_calls st
       else setInt_calls st ++
              [(entry, String.append str "_micros",
                Z.quot (wrap64 (clock1 - clock0)) 1000)]) /\
    Timer_dtor true s_names clock1 (Timer_ctor true clock0 name entry) st =
      Done st' /\
    Timer_dtor true s_names clock2 t' st' = Done st' /\
    Timer_stop true s_names clock2 t' st' = Stopped assertx_not_finished.
Proof.
  intros Hc Hs.
  unfold Timer_dtor, Timer_stop, Timer_ctor, getCPUTimeNanos.
  cbn [negb m_finished m_name m_start m_log_entry].
  rewrite Hc, Hs.
  destruct (entry =? nullptr); eexists _, _;
    (split; [reflexivity|]); (split; [reflexivity|]);
    (split; [|repeat split]);
    intros other Hne; cbn; apply list_lookup_insert_ne; congruence.
Qed.

(** X10. With the timer option off a timer is inert: its start time is
    [-1]; [stop()] returns 0 and leaves the timer, the counters and the
    log entries as they are, however often it is called and whatever the
    name; the destructor does the same, and so does every run of timer
    lifetimes. *)
Theorem timer_is_inert_when_disabled
    (clock0 clock : Z) (name : nat) (entry : Z) (st : timers)
    (l : list (nat * Z * Z)) :
  m_start (Timer_ctor false clock0 name entry) = -1 /\
  Timer_stop false s_names clock (Timer_ctor false clock0 name entry) st =
    Done (0, Timer_ctor false clock0 name entry, st) /\
  Timer_dtor false s_names clock (Timer_ctor false clock0 name entry) st =
    Done st /\
  Timer_lifetimes false s_names l st = Done st.
Proof.
  split; [reflexivity|]. split; [reflexivity|]. split; [reflexivity|].
  induction l as [|[[n from] to] l IH]; [reflexivity|].
  cbn. exact IH.
Qed.

Lemma elapsed_of_cons_same (name : nat) (from to : Z) (l : list (nat * Z * Z)) :
  elapsed_of name ((name, from, to) :: l) = (to - from) :: elapsed_of name l.
Proof.
  unfold elapsed_of. rewrite filter_cons_True by reflexivity. reflexivity.
Qed.

Lemma elapsed_of_cons_other (k name : nat) (from to : Z)
    (l : list (nat * Z * Z)) :
  k <> name -> elapsed_of k ((name, from, to) :: l) = elapsed_of k l.
Proof.
  intros Hne. unfold elapsed_of.
  rewrite filter_cons_False by (cbn; congruence). reflexivity.
Qed.

Lemma elapsed_of_nonneg (k : nat) (l : list (nat * Z * Z)) :
  Forall (fun x => 0 <= snd (fst x) <= snd x) l ->
  Forall (fun e => 0 <= e) (elapsed_of k l).
Proof.
  induction 1 as [|[[n from] to] l Hx Hl IH]; [constructor|].
  destruct (Nat.eq_dec k n) as [->|Hne].
  - rewrite elapsed_of_cons_same. constructor; [cbn in Hx; lia|exact IH].
  - rewrite elapsed_of_cons_other by exact Hne. exact IH.
Qed.

Lemma sum_Z_nonneg (l : list Z) : Forall (fun e => 0 <= e) l -> 0 <= sum_Z l.
Proof.
  unfold sum_Z. induction 1 as [|e l He Hl IH]; cbn [fold_right]; lia.
Qed.

Lemma max_Z_nonneg (l : list Z) : 0 <= max_Z l.
Proof.
  unfold max_Z. induction l as [|e l IH]; cbn [fold_right]; lia.
Qed.

Lemma max_Z_le_sum_Z (l : list Z) :
  Forall (fun e => 0 <= e) l ->
  max_Z l <= sum_Z l /\ sum_Z l <= Z.of_nat (length l) * max_Z l.
Proof.
  induction 1 as [|e l He Hl IH]; [cbn; lia|].
  pose proof (max_Z_nonneg l). pose proof (sum_Z_nonneg l Hl).
  cbn [max_Z sum_Z fold_right length]. fold (max_Z l). fold (sum_Z l).
  rewrite Nat2Z.inj_succ. split; [lia|].
  destruct IH as [_ IH].
  assert (Z.of_nat (length l) * max_Z l
          <= Z.of_nat (length l) * Z.max e (max_Z l))
    by (apply Z.mul_le_mono_nonneg_l; lia).
  nia.
Qed.

(** A counter with what a list of elapsed times adds to it. *)
Lemma Timer_lifetimes_spec (l : list (nat * Z * Z)) :
  forall st : timers,
    Forall (fun x => (fst (fst x) < length (s_counters st))%nat /\
                     0 <= snd (fst x) <= snd x /\ snd x < 2 ^ 63) l ->
    (forall k c, s_counters st !! k = Some c ->
       0 <= Counter_total c /\ 0 <= Counter_count c /\ 0 <= Counter_max c /\
       Counter_total c + sum_Z (elapsed_of k l) < 2 ^ 63 /\
       Counter_count c + Z.of_nat (length (elapsed_of k l)) < 2 ^ 63) ->
    exists st',
      Timer_lifetimes true s_names l st = Done st' /\
      setInt_calls st' = setInt_calls st /\
      length (s_counters st') = length (s_counters st) /\
      forall k c, s_counters st !! k = Some c ->
        s_counters st' !! k =
          Some (MkCounter
                  (Counter_total c + sum_Z (elapsed_of k l))
                  (Counter_count c + Z.of_nat (length (elapsed_of k l)))
                  (Z.max (Counter_max c) (max_Z (elapsed_of k l)))).
Proof.
  induction l as [|[[name from] to] l IH]; intros st Hl Hst.
  - exists st. split; [reflexivity|]. split; [reflexivity|].
    split; [reflexivity|]. intros k c Hk. rewrite Hk.
    destruct (Hst k c Hk) as (_ & _ & Hm & _).
    destruct c as [t n m]. cbn in *. f_equal. f_equal; lia.
  - apply Forall_cons in Hl as [(Hname & Hclk & Hto) Hl]. cbn in Hname, Hclk, Hto.
    destruct (lookup_lt_is_Some_2 _ _ Hname) as [c Hc].
    pose proof (elapsed_of_nonneg name l) as Hnn.
    assert (Forall (fun x : nat * Z * Z => 0 <= snd (fst x) <= snd x) l) as Hl0.
    { eapply Forall_impl; [exact Hl|]. cbn. intros x Hx. tauto. }
    specialize (Hnn Hl0). apply sum_Z_nonneg in Hnn.
    destruct (Hst name c Hc) as (Ht0 & Hn0 & Hm0 & Htb & Hnb).
    rewrite elapsed_of_cons_same in Htb, Hnb.
    cbn [sum_Z fold_right length] in Htb, Hnb. fold (sum_Z (elapsed_of name l)) in Htb.
    rewrite Nat2Z.inj_succ in Hnb.
    set (c' := MkCounter (Counter_total c + (to - from))
                         (Counter_count c + 1)
                         (Z.max (Counter_max c) (to - from))).
    assert (Timer_lifetime true s_names name from to st =
            Done (MkTimers (<[name := c']> (s_counters st)) (setInt_calls st)))
      as Hstep.
    { unfold Timer_lifetime, Timer_dtor, Timer_stop, Timer_ctor, getCPUTimeNanos.
      cbn [negb m_finished m_name m_start m_log_entry]. rewrite Hc.
      cbn. rewrite (wrap64_id (to - from)) by lia.
      rewrite !wrap64_id by lia. reflexivity. }
    cbn [Timer_lifetimes]. rewrite Hstep.
    destruct (IH (MkTimers (<[name := c']> (s_counters st)) (setInt_calls st)))
      as (st' & Hrun & Hcalls & Hlen & Hcs).
    + cbn [s_counters]. rewrite length_insert.
      eapply Forall_impl; [exact Hl|]. cbn. intros x Hx. exact Hx.
    + cbn [s_counters]. intros k ck Hk.
      destruct (Nat.eq_dec k name) as [->|Hne].
      * rewrite list_lookup_insert_eq in Hk by exact Hname.
        injection Hk as <-. cbn. lia.
      * rewrite list_lookup_insert_ne in Hk by congruence.
        destruct (Hst k ck Hk) as (H1 & H2 & H2' & H3 & H4).
        rewrite elapsed_of_cons_other in H3, H4 by exact Hne. tauto.
    + exists st'. split; [exact Hrun|]. split; [exact Hcalls|].
      split; [rewrite Hlen; cbn; apply length_insert|].
      intros k ck Hk. destruct (Nat.eq_dec k name) as [->|Hne].
      * rewrite Hc in Hk. injection Hk as <-.
        rewrite (Hcs name c') by (cbn; apply list_lookup_insert_eq; exact Hname).
        rewrite elapsed_of_cons_same. unfold sum_Z, max_Z.
        cbn [fold_right length c' Counter_total Counter_count Counter_max].
        rewrite Nat2Z.inj_succ. f_equal. f_equal; lia.
      * rewrite (Hcs k ck)
          by (cbn; rewrite list_lookup_insert_ne by congruence; exact Hk).
        rewrite elapsed_of_cons_other by exact Hne. reflexivity.
Qed.

(** X11. With the timer option on, timers accumulate.  After any run
    of timer lifetimes whose names have a counter and whose clock values
    do not go backwards, started from counters that are not negative
    and with no sum leaving the range of [int64_t], the counter of each
    name holds its old total plus the sum of the elapsed times of that
    name, its old count plus their number, and the larger of its old
    maximum and their maximum; no log entry is written. *)
Theorem timer_lifetimes_accumulate (l : list (nat * Z * Z)) (st : timers) :
  Forall (fun x => (fst (fst x) < length (s_counters st))%nat /\
                   0 <= snd (fst x) <= snd x /\ snd x < 2 ^ 63) l ->
  (forall k c, s_counters st !! k = Some c ->
     0 <= Counter_total c /\ 0 <= Counter_count c /\ 0 <= Counter_max c /\
     Counter_total c + sum_Z (elapsed_of k l) < 2 ^ 63 /\
     Counter_count c + Z.of_nat (length (elapsed_of k l)) < 2 ^ 63) ->
  exists st',
    Timer_lifetimes true s_names l st = Done st' /\
    setInt_calls st' = setInt_calls st /\
    forall k c, Timer_CounterValue k st = Some c ->
      Timer_CounterValue k st' =
        Some (MkCounter
                (Counter_total c + sum_Z (elapsed_of k l))
                (Counter_count c + Z.of_nat (length (elapsed_of k l)))
                (Z.max (Counter_max c) (max_Z (elapsed_of k l)))).
Proof.
  intros Hl Hst.
  destruct (Timer_lifetimes_spec l st Hl Hst) as (st' & Hrun & Hcalls & _ & Hcs).
  exists st'. split; [exact Hrun|]. split; [exact Hcalls|]. exact Hcs.
Qed.

(** X12. After [RequestInit()] and any such run of timer lifetimes,
    every counter is consistent: its count is the number of timers of
    its name, its maximum is no more than its total, and its total is
    no more than count times maximum; so a counter that counted no
    timer has total zero.  (The converse fails: a timer whose clock did
    not advance counts one and adds zero.) *)
Theorem timer_counters_consistent_after_RequestInit
    (l : list (nat * Z * Z)) (st : timers) :
  Forall (fun x => (fst (fst x) < length (s_counters st))%nat /\
                   0 <= snd (fst x) <= snd x /\ snd x < 2 ^ 63) l ->
  (forall k, sum_Z (elapsed_of k l) < 2 ^ 63 /\
             Z.of_nat (length (elapsed_of k l)) < 2 ^ 63) ->
  exists st',
    Timer_lifetimes true s_names l (Timer_RequestInit st) = Done st' /\
    forall k, (k < length (s_counters st))%nat ->
      exists c,
        Timer_CounterValue k st' = Some c /\
        Counter_count c = Z.of_nat (length (elapsed_of k l)) /\
        0 <= Counter_max c <= Counter_total c /\
        Counter_total c <= Counter_count c * Counter_max c /\
        (Counter_count c = 0 -> Counter_total c = 0).
Proof.
  intros Hl Hsum.
  destruct (Timer_lifetimes_spec l (Timer_RequestInit st))
    as (st' & Hrun & _ & _ & Hcs).
  - cbn. rewrite length_replicate. exact Hl.
  - cbn. intros k c Hk. apply lookup_replicate in Hk as [-> _]. cbn.
    destruct (Hsum k). lia.
  - exists st'. split; [exact Hrun|]. intros k Hk.
    assert (s_counters (Timer_RequestInit st) !! k = Some (MkCounter 0 0 0))
      as H0 by (cbn; apply lookup_replicate; auto).
    eexists. split; [exact (Hcs k _ H0)|]. cbn.
    assert (Forall (fun e => 0 <= e) (elapsed_of k l)) as Hnn.
    { apply elapsed_of_nonneg. eapply Forall_impl; [exact Hl|].
      cbn. intros x Hx. tauto. }
    pose proof (max_Z_le_sum_Z _ Hnn) as [H1 H2].
    pose proof (max_Z_nonneg (elapsed_of k l)) as H3.
    rewrite Z.max_r by lia.
    split; [reflexivity|]. split; [lia|]. split; [lia|].
    intros H.
    assert (Z.of_nat (length (elapsed_of k l)) = 0) as Hz by lia.
    rewrite Hz in H2. pose proof (sum_Z_nonneg _ Hnn). lia.
Qed.

End JitTimerProperties.

(** ** The timer statements on concrete timers *)

Lemma timer_is_counted_once_witness :
  (s_counters demo_timers !! 1%nat = Some (MkCounter 0 0 0) /\
   demo_names !! 1%nat = Some "second"%string) /\
  exists t' st',
    Timer_stop true demo_names 4500 (Timer_ctor true 1000 1 0x900) demo_timers =
      Done (wrap64 (4500 - 1000), t', st') /\
    Timer_dtor true demo_names 9000 t' st' = Done st' /\
    Timer_stop true demo_names 9000 t' st' = Stopped assertx_not_finished.
Proof.
  split; [split; reflexivity|].
  destruct (timer_is_counted_once demo_names 1000 4500 9000 1 0x900
              demo_timers (MkCounter 0 0 0) "second"%string eq_refl eq_refl)
    as (t' & st' & Hstop & _ & _ & _ & _ & Hdtor & Hagain).
  exists t', st'. split; [exact Hstop|]. split; [exact Hdtor|exact Hagain].
Defined.

Lemma demo_lifetimes_in_range :
  Forall (fun x : nat * Z * Z =>
            (fst (fst x) < length (s_counters demo_timers))%nat /\
            0 <= snd (fst x) <= snd x /\ snd x < 2 ^ 63) demo_lifetimes.
Proof.
  repeat constructor; cbn; lia.
Defined.

Lemma timer_lifetimes_accumulate_witness :
  Forall (fun x : nat * Z * Z =>
            (fst (fst x) < length (s_counters demo_timers))%nat /\
            0 <= snd (fst x) <= snd x /\ snd x < 2 ^ 63) demo_lifetimes /\
  (forall k c, s_counters demo_timers !! k = Some c ->
     0 <= Counter_total c /\ 0 <= Counter_count c /\ 0 <= Counter_max c /\
     Counter_total c + sum_Z (elapsed_of k demo_lifetimes) < 2 ^ 63 /\
     Counter_count c + Z.of_nat (length (elapsed_of k demo_lifetimes)) < 2 ^ 63) /\
  exists st',
    Timer_lifetimes true demo_names demo_lifetimes demo_timers = Done st' /\
    Timer_CounterValue 0 st' =
      Some (MkCounter
              (0 + sum_Z (elapsed_of 0 demo_lifetimes))
              (0 + Z.of_nat (length (elapsed_of 0 demo_lifetimes)))
              (Z.max 0 (max_Z (elapsed_of 0 demo_lifetimes)))).
Proof.
  assert (forall k c, s_counters demo_timers !! k = Some c ->
     0 <= Counter_total c /\ 0 <= Counter_count c /\ 0 <= Counter_max c /\
     Counter_total c + sum_Z (elapsed_of k demo_lifetimes) < 2 ^ 63 /\
     Counter_count c + Z.of_nat (length (elapsed_of k demo_lifetimes)) < 2 ^ 63)
    as Hst.
  { intros [|[|k]] c Hk; cbn in Hk; try discriminate;
      injection Hk as <-; vm_compute; repeat split; congruence. }
  split; [exact demo_lifetimes_in_range|]. split; [exact Hst|].
  destruct (timer_lifetimes_accumulate demo_names demo_lifetimes demo_timers
              demo_lifetimes_in_range Hst) as (st' & Hrun & _ & Hcs).
  exists st'. split; [exact Hrun|].
  exact (Hcs 0%nat (MkCounter 0 0 0) eq_refl).
Defined.

Lemma timer_counters_consistent_after_RequestInit_witness :
  Forall (fun x : nat * Z * Z =>
            (fst (fst x) < length (s_counters demo_timers))%nat /\
            0 <= snd (fst x) <= snd x /\ snd x < 2 ^ 63) demo_lifetimes /\
  (forall k, sum_Z (elapsed_of k demo_lifetimes) < 2 ^ 63 /\
             Z.of_nat (length (elapsed_of k demo_lifetimes)) < 2 ^ 63) /\
  exists st',
    Timer_lifetimes true demo_names demo_lifetimes
      (Timer_RequestInit demo_timers) = Done st' /\
    exists c,
      Timer_CounterValue 1 st' = Some c /\
      Counter_count c = Z.of_nat (length (elapsed_of 1 demo_lifetimes)) /\
      0 <= Counter_max c <= Counter_total c.
Proof.
  assert (forall k, sum_Z (elapsed_of k demo_lifetimes) < 2 ^ 63 /\
             Z.of_nat (length (elapsed_of k demo_lifetimes)) < 2 ^ 63) as Hsum.
  { intros [|[|k]]; vm_compute; split; congruence. }
  split; [exact demo_lifetimes_in_range|]. split; [exact Hsum|].
  destruct (timer_counters_consistent_after_RequestInit demo_names
              demo_lifetimes demo_timers demo_lifetimes_in_range Hsum)
    as (st' & Hrun & Hcs).
  exists st'. split; [exact Hrun|].
  destruct (Hcs 1%nat) as (c & Hc & Hn & Hm & _); [cbn; lia|].
  exists c. split; [exact Hc|]. split; [exact Hn|exact Hm].
Defined.

(** The three lifetimes, run: timer 0 has counted two timers, 75 in
    total, 60 at most; timer 1 has counted one timer of no duration. *)
Example timer_lifetimes_run :
  Timer_lifetimes true demo_names demo_lifetimes demo_timers =
    Done (MkTimers [MkCounter 75 2 60; MkCounter 0 1 0] []).
Proof. vm_compute. reflexivity. Qed.
